(** * Expense splitter: authentication and group settlement (split.py)

    A shallow embedding of the FastAPI service in [split.py]: the two
    module-level dictionaries [fake_users_db] and [fake_groups_db], the
    token helpers built on PyJWT, and the request handlers that mutate the
    dictionaries.  Handlers are state transformers that return an
    [outcome]; an exception raised half-way through a handler leaves the
    mutations made so far in the store, as in Python. *)

From Stdlib Require Import ZArith String Ascii List Bool Lia.
From Stdlib Require Import Floats.
From stdpp Require Import gmap strings list.

Import ListNotations.
Local Open Scope string_scope.
Local Open Scope Z_scope.

(** ** Outcomes of a handler *)

(** What a call produces: a returned value, an [HTTPException] raised by
    the handler, or one of the two built-in exceptions the handlers can
    raise without catching ([dict] subscript on a missing key, float
    division by zero). *)
Inductive outcome (A : Type) : Type :=
  | Returns (a : A)
  | HTTPException (status_code : Z) (detail : string)
  | KeyError (key : string)
  | ZeroDivisionError.

Arguments Returns {A} a.
Arguments HTTPException {A} status_code detail.
Arguments KeyError {A} key.
Arguments ZeroDivisionError {A}.

(** ** Python floats

    A Python [float] is an IEEE 754 binary64 number, which is what Rocq's
    primitive [float] is.  [0] written as an [int] in the source compares
    and divides like [0.0], so amounts are floats throughout. *)

(** The float of a list length (lengths stay far below [2^63]). *)
Definition float_of_nat (n : nat) : float :=
  PrimFloat.of_uint63 (Uint63.of_Z (Z.of_nat n)).

(** [a / len(l)]: true division of a float by an [int]; Python raises
    [ZeroDivisionError] when the divisor is zero. *)
Definition py_truediv (a : float) (n : nat) : outcome float :=
  match n with
  | O => ZeroDivisionError
  | S _ => Returns (PrimFloat.div a (float_of_nat n))
  end.

(** [a > b] and [a == b] on floats: both are [False] when an operand is
    NaN. *)
Definition py_gt (a b : float) : bool := PrimFloat.ltb b a.
Definition py_eq (a b : float) : bool := PrimFloat.eqb a b.
Definition py_le (a b : float) : bool := PrimFloat.leb a b.

(** [round(x, 2)]: CPython rounds the exact binary value of [x] to two
    decimal places, ties to even, and returns the double nearest to that
    decimal.  NaN, infinities and zeros round to themselves. *)
Definition round_half_even (num den : Z) : Z :=
  let q := num / den in
  let r := num mod den in
  if 2 * r <? den then q
  else if den <? 2 * r then q + 1
  else if Z.even q then q else q + 1.

Definition py_round2 (x : float) : float :=
  match Prim2SF x with
  | S754_finite s m e =>
      if 0 <=? e then x
      else
        match round_half_even (Z.pos m * 100) (2 ^ (- e)) with
        | Z.pos p =>
            SF2Prim (SFdiv prec emax (S754_finite s p 0) (S754_finite false 100 0))
        | _ => if s then (-0)%float else 0%float
        end
  | _ => x
  end.

(** ** Data model *)

(** Values of the ["status"] key of a payment record.  ["pending"] is
    written by [approve_payment] only. *)
Inductive status : Type :=
  | unpaid
  | pending_approval
  | approved
  | denied
  | pending.

Definition status_str (s : status) : string :=
  match s with
  | unpaid => "unpaid"
  | pending_approval => "pending_approval"
  | approved => "approved"
  | denied => "denied"
  | pending => "pending"
  end.

(** [{"paid_amount": ..., "status": ...}] *)
Record Payment : Type := mkPayment {
  paid_amount : float;
  status_of : status
}.

(** The payment every member starts with. *)
Definition default_payment : Payment :=
  {| paid_amount := 0%float; status_of := unpaid |}.

(** A value of [fake_groups_db].  [create_group] stores all five keys;
    [register] creates groups that carry ["members"] only, so the other
    four keys may be absent and a subscript on them raises [KeyError]. *)
Record Group : Type := mkGroup {
  admin : option string;
  budget : option float;
  members : list string;
  split_amount : option float;
  payments : option (gmap string Payment)
}.

(** A value of [fake_users_db]. *)
Record User : Type := mkUser {
  username : string;
  password : string;
  roles : list string;
  groups : list string
}.

(** The two module-level dictionaries. *)
Record store : Type := mkStore {
  fake_users_db : gmap string User;
  fake_groups_db : gmap string Group
}.

Definition empty_store : store :=
  {| fake_users_db := ∅; fake_groups_db := ∅ |}.

(** ** Handlers as state transformers *)

Definition handler (A : Type) : Type := store -> outcome A * store.

Definition ret {A} (a : A) : handler A := fun st => (Returns a, st).

Definition bind {A B} (m : handler A) (k : A -> handler B) : handler B :=
  fun st =>
    match m st with
    | (Returns a, st') => k a st'
    | (HTTPException c d, st') => (HTTPException c d, st')
    | (KeyError key, st') => (KeyError key, st')
    | (ZeroDivisionError, st') => (ZeroDivisionError, st')
    end.

Notation "'let*' x ':=' m 'in' k" := (bind m (fun x => k))
  (at level 10, x name, m at level 100, k at level 200).
Notation "m ';;' k" := (bind m (fun _ => k))
  (at level 100, k at level 200, right associativity).

Definition http_error {A} (code : Z) (detail : string) : handler A :=
  fun st => (HTTPException code detail, st).
Definition key_error {A} (key : string) : handler A :=
  fun st => (KeyError key, st).

(** Lift a pure computation that may raise. *)
Definition lift {A} (o : outcome A) : handler A := fun st => (o, st).

(** [d[key]] on an optional key of a group. *)
Definition subscript {A} (key : string) (o : option A) : handler A :=
  match o with
  | Some a => ret a
  | None => key_error key
  end.

Definition get_groups : handler (gmap string Group) :=
  fun st => (Returns (fake_groups_db st), st).
Definition get_users : handler (gmap string User) :=
  fun st => (Returns (fake_users_db st), st).
Definition put_group (name : string) (g : Group) : handler unit :=
  fun st => (Returns tt,
             {| fake_users_db := fake_users_db st;
                fake_groups_db := <[name := g]> (fake_groups_db st) |}).
Definition put_user (name : string) (u : User) : handler unit :=
  fun st => (Returns tt,
             {| fake_users_db := <[name := u]> (fake_users_db st);
                fake_groups_db := fake_groups_db st |}).

(** [fake_groups_db[name]] followed by an in-place mutation of the group. *)
Definition modify_group (name : string) (f : Group -> Group) : handler unit :=
  let* gs := get_groups in
  match gs !! name with
  | Some g => put_group name (f g)
  | None => key_error name
  end.

(** [for x in l: body x] *)
Fixpoint for_each {A} (l : list A) (body : A -> handler unit) : handler unit :=
  match l with
  | [] => ret tt
  | x :: l' => body x ;; for_each l' body
  end.

Definition set_members (ms : list string) (g : Group) : Group :=
  {| admin := admin g; budget := budget g; members := ms;
     split_amount := split_amount g; payments := payments g |}.
Definition set_split_amount (s : float) (g : Group) : Group :=
  {| admin := admin g; budget := budget g; members := members g;
     split_amount := Some s; payments := payments g |}.
Definition set_payments (ps : gmap string Payment) (g : Group) : Group :=
  {| admin := admin g; budget := budget g; members := members g;
     split_amount := split_amount g; payments := Some ps |}.
Definition set_groups (gl : list string) (u : User) : User :=
  {| username := username u; password := password u; roles := roles u;
     groups := gl |}.

(** ** Strings: [str.split(",")] and [str.strip()]

    A Python [str] is held as the bytes of its UTF-8 encoding, so a
    character above U+007F takes two or three bytes.  [str.strip()]
    removes the characters for which [str.isspace()] holds: U+0009 to
    U+000D, U+001C to U+0020, U+0085, U+00A0, U+1680, U+2000 to U+200A,
    U+2028, U+2029, U+202F, U+205F and U+3000. *)

Definition is_ascii_space (n : nat) : bool :=
  ((9 <=? n)%nat && (n <=? 13)%nat) || ((28 <=? n)%nat && (n <=? 32)%nat).

(** U+0085 and U+00A0 are [C2 85] and [C2 A0]. *)
Definition is_space2 (a b : nat) : bool :=
  (a =? 194)%nat && ((b =? 133)%nat || (b =? 160)%nat).

(** U+1680 is [E1 9A 80]; U+2000 to U+200A, U+2028, U+2029 and U+202F are
    [E2 80 80] to [E2 80 8A], [E2 80 A8], [E2 80 A9] and [E2 80 AF];
    U+205F is [E2 81 9F]; U+3000 is [E3 80 80]. *)
Definition is_space3 (a b c : nat) : bool :=
  ((a =? 225)%nat && (b =? 154)%nat && (c =? 128)%nat)
  || ((a =? 226)%nat && (b =? 128)%nat
      && (((128 <=? c)%nat && (c <=? 138)%nat)
          || (c =? 168)%nat || (c =? 169)%nat || (c =? 175)%nat))
  || ((a =? 226)%nat && (b =? 129)%nat && (c =? 159)%nat)
  || ((a =? 227)%nat && (b =? 128)%nat && (c =? 128)%nat).

(** The number of bytes of the white space character that [l] starts
    with; 0 when it starts with none. *)
Definition space_width (l : list ascii) : nat :=
  match l with
  | [] => 0%nat
  | a :: l1 =>
      if is_ascii_space (nat_of_ascii a) then 1%nat
      else
        match l1 with
        | [] => 0%nat
        | b :: l2 =>
            if is_space2 (nat_of_ascii a) (nat_of_ascii b) then 2%nat
            else
              match l2 with
              | [] => 0%nat
              | c :: _ =>
                  if is_space3 (nat_of_ascii a) (nat_of_ascii b) (nat_of_ascii c)
                  then 3%nat else 0%nat
              end
        end
  end.

(** The same for a string read from its end: [l] holds the bytes in
    reverse. *)
Definition space_width_rev (l : list ascii) : nat :=
  match l with
  | [] => 0%nat
  | c :: l1 =>
      if is_ascii_space (nat_of_ascii c) then 1%nat
      else
        match l1 with
        | [] => 0%nat
        | b :: l2 =>
            if is_space2 (nat_of_ascii b) (nat_of_ascii c) then 2%nat
            else
              match l2 with
              | [] => 0%nat
              | a :: _ =>
                  if is_space3 (nat_of_ascii a) (nat_of_ascii b) (nat_of_ascii c)
                  then 3%nat else 0%nat
              end
        end
  end.

(** Drop white space characters from the front for as long as there is
    one; [fuel] bounds the number of rounds. *)
Fixpoint strip_front (width : list ascii -> nat) (fuel : nat) (l : list ascii)
    : list ascii :=
  match fuel with
  | O => l
  | S fuel' =>
      match width l with
      | O => l
      | S k => strip_front width fuel' (skipn (S k) l)
      end
  end.

Definition lstrip_bytes (l : list ascii) : list ascii :=
  strip_front space_width (length l) l.

Definition rstrip_bytes (l : list ascii) : list ascii :=
  rev (strip_front space_width_rev (length l) (rev l)).

Fixpoint split_comma (s : string) : list string :=
  match s with
  | EmptyString => [EmptyString]
  | String c s' =>
      if Ascii.eqb c "," then EmptyString :: split_comma s'
      else match split_comma s' with
           | h :: t => String c h :: t
           | [] => [String c EmptyString]
           end
  end.

Definition lstrip (s : string) : string :=
  string_of_list_ascii (lstrip_bytes (list_ascii_of_string s)).

Definition rstrip (s : string) : string :=
  string_of_list_ascii (rstrip_bytes (list_ascii_of_string s)).

Definition strip (s : string) : string :=
  string_of_list_ascii
    (rstrip_bytes (lstrip_bytes (list_ascii_of_string s))).

Definition nonempty (s : string) : bool :=
  match s with EmptyString => false | _ => true end.

(** [[g.strip() for g in groups.split(",") if g.strip()]] *)
Definition parse_groups (groups : string) : list string :=
  List.filter nonempty (List.map strip (split_comma groups)).

(** ** Tokens

    Two clocks are read.  [datetime.utcnow()] gives the issue time as a
    [datetime], held as whole microseconds since the epoch.  The library
    checks expiry against [datetime.now(tz=timezone.utc).timestamp()], a
    [float] of seconds, and compares it with the integer under ["exp"] as
    Python compares an [int] with a [float]: exactly.

    A token is its header's algorithm, its payload and its signature, or a
    string that is not a JWT.  The signature is the library's MAC of the
    payload under a key and an algorithm; the model is parametric in
    it. *)

(** [n] against [f], both taken as exact numbers; [None] for NaN. *)
Definition int_compare_float (n : Z) (f : float) : option comparison :=
  match Prim2SF f with
  | S754_nan => None
  | S754_infinity s => Some (if s then Gt else Lt)
  | S754_zero _ => Some (n ?= 0)
  | S754_finite s m e =>
      let v := if s then Z.neg m else Z.pos m in
      Some (if 0 <=? e then n ?= v * 2 ^ e else n * 2 ^ (- e) ?= v)
  end.

(** [n <= f] and [f < n] for an [int] [n] and a [float] [f]. *)
Definition py_int_le_float (n : Z) (f : float) : bool :=
  match int_compare_float n f with
  | Some Lt | Some Eq => true
  | _ => false
  end.
Definition py_float_lt_int (f : float) (n : Z) : bool :=
  match int_compare_float n f with
  | Some Gt => true
  | _ => false
  end.

(** [datetime.timestamp()] of an aware [datetime] that lies [usec]
    microseconds after the epoch: the true division [usec / 10**6] of two
    [int]s, which is the [float] nearest to the quotient. *)
Definition timestamp (usec : Z) : float :=
  match usec with
  | Z0 => 0%float
  | Z.pos p =>
      SF2Prim (SFdiv prec emax (S754_finite false p 0)
                 (S754_finite false 1000000 0))
  | Z.neg p =>
      SF2Prim (SFdiv prec emax (S754_finite true p 0)
                 (S754_finite false 1000000 0))
  end.

Record Settings : Type := mkSettings {
  SECRET_KEY : string;
  ALGORITHM : string;
  ACCESS_TOKEN_EXPIRE_MINUTES : Z;
  REFRESH_TOKEN_EXPIRE_DAYS : Z
}.

(** The class defaults of [Settings]. *)
Definition default_settings : Settings :=
  {| SECRET_KEY := "mysecretkey";
     ALGORITHM := "HS256";
     ACCESS_TOKEN_EXPIRE_MINUTES := 30;
     REFRESH_TOKEN_EXPIRE_DAYS := 7 |}.

(** A value under ["exp"]: the [datetime] the program puts there, or the
    whole number of seconds since the epoch that the encoded token
    carries. *)
Inductive time_claim : Type :=
  | Datetime (usec : Z)
  | NumericDate (secs : Z).

Definition usec_per_sec : Z := 1000000.
Definition timedelta_minutes (m : Z) : Z := m * 60 * usec_per_sec.
Definition timedelta_days (d : Z) : Z := d * 86400 * usec_per_sec.

(** [timegm(dt.utctimetuple())]: the microseconds are dropped. *)
Definition numeric_date (t : time_claim) : Z :=
  match t with
  | Datetime usec => usec / usec_per_sec
  | NumericDate secs => secs
  end.

(** The payload dictionary of a token, with the five keys the program
    reads or writes; a key that is absent is [None]. *)
Record claims : Type := mkClaims {
  sub : option string;
  claim_roles : option (list string);
  claim_groups : option (list string);
  exp : option time_claim;
  token_type : option string
}.

(** [{"sub": ..., "roles": ..., "groups": ...}] *)
Definition identity_claims (s : string) (rs gs : list string) : claims :=
  {| sub := Some s; claim_roles := Some rs; claim_groups := Some gs;
     exp := None; token_type := None |}.

(** [to_encode.update({"exp": expire, "token_type": ty})] *)
Definition update_exp_type (expire : Z) (ty : string) (data : claims) : claims :=
  {| sub := sub data; claim_roles := claim_roles data;
     claim_groups := claim_groups data;
     exp := Some (Datetime expire); token_type := Some ty |}.

Inductive token : Type :=
  | Signed (alg : string) (payload : claims) (signature : string)
  | Malformed (raw : string).

Inductive jwt_error : Type :=
  | ExpiredSignatureError
  | InvalidTokenError.

Section TokenService.

(** The MAC of the library: the signature of a payload under an
    algorithm and a key. *)
Variable sign : string -> string -> claims -> string.

(** [jwt.encode]: a [datetime] under ["exp"] is replaced by its numeric
    date, and the payload is signed with the key under the algorithm. *)
Definition jwt_encode (payload : claims) (key alg : string) : token :=
  let body :=
    {| sub := sub payload; claim_roles := claim_roles payload;
       claim_groups := claim_groups payload;
       exp := option_map (fun t => NumericDate (numeric_date t)) (exp payload);
       token_type := token_type payload |} in
  Signed alg body (sign alg key body).

(** [jwt.decode] (PyJWT 2.6 and later): the header's algorithm is checked
    against the allowed ones, the signature against the MAC of the payload
    under the key, and a token that carries ["exp"] is expired when
    [exp <= now], [now] being the clock reading in seconds. *)
Definition jwt_decode (tok : token) (key : string) (algorithms : list string)
    (now : float) : claims + jwt_error :=
  match tok with
  | Malformed _ => inr InvalidTokenError
  | Signed alg payload signature =>
      if negb (bool_decide (alg ∈ algorithms)) then inr InvalidTokenError
      else if negb (String.eqb signature (sign alg key payload))
      then inr InvalidTokenError
      else match exp payload with
           | Some e =>
               if py_int_le_float (numeric_date e) now
               then inr ExpiredSignatureError
               else inl payload
           | None => inl payload
           end
  end.

Variable settings : Settings.

(** [now] is the reading of [datetime.utcnow()]. *)
Definition create_access_token (now : Z) (data : claims)
    (expires_delta : option Z) : token :=
  let to_encode := data in
  let delta :=
    match expires_delta with
    | Some d => if d =? 0 then timedelta_minutes (ACCESS_TOKEN_EXPIRE_MINUTES settings) else d
    | None => timedelta_minutes (ACCESS_TOKEN_EXPIRE_MINUTES settings)
    end in
  let expire := now + delta in
  let to_encode := update_exp_type expire "access" to_encode in
  jwt_encode to_encode (SECRET_KEY settings) (ALGORITHM settings).

Definition create_refresh_token (now : Z) (data : claims) : token :=
  let to_encode := data in
  let expire := now + timedelta_days (REFRESH_TOKEN_EXPIRE_DAYS settings) in
  let to_encode := update_exp_type expire "refresh" to_encode in
  jwt_encode to_encode (SECRET_KEY settings) (ALGORITHM settings).

(** The dependency every protected route runs first; [now] is the clock
    reading, in seconds, at the time of the request. *)
Definition get_token_payload (now : float) (tok : token) : outcome claims :=
  match jwt_decode tok (SECRET_KEY settings) [ALGORITHM settings] now with
  | inl payload => Returns payload
  | inr ExpiredSignatureError => HTTPException 401 "Token expired"
  | inr InvalidTokenError => HTTPException 401 "Invalid token"
  end.

(** [payload: dict = Depends(get_token_payload)]: the route body runs on
    the decoded payload, or the request fails with the dependency's
    error. *)
Definition Depends {A} (now : float) (tok : token) (route : claims -> handler A)
    : handler A :=
  let* payload := lift (get_token_payload now tok) in
  route payload.

End TokenService.

(** ** Routes *)

Record RegisterResponse : Type := mkRegisterResponse {
  reg_msg : string;
  reg_username : string;
  reg_roles : list string;
  reg_groups : list string
}.

Record TokenResponse : Type := mkTokenResponse {
  access_token : token;
  refresh_token_of : token;
  bearer : string
}.

(** The dictionary [register] creates for a group it has not seen:
    [{"members": []}]. *)
Definition members_only : Group :=
  {| admin := None; budget := None; members := [];
     split_amount := None; payments := None |}.

(** [fake_groups_db.setdefault(g, {"members": []})["members"].append(username)] *)
Definition setdefault_append (g uname : string) : handler unit :=
  let* gs := get_groups in
  let grp := default members_only (gs !! g) in
  put_group g (set_members (members grp ++ [uname]) grp).

Section CredentialStore.

(** [pwd_context.hash] and [pwd_context.verify] of passlib. *)
Variable hash_password : string -> string.
Variable verify_password : string -> string -> bool.

Variable sign : string -> string -> claims -> string.
Variable settings : Settings.

Definition authenticate_user (uname pw : string) : handler (option User) :=
  let* users := get_users in
  match users !! uname with
  | None => ret None
  | Some user =>
      if negb (verify_password pw (password user)) then ret None
      else ret (Some user)
  end.

Definition register (uname pw role groups_field : string)
    : handler RegisterResponse :=
  let* users := get_users in
  match users !! uname with
  | Some _ => http_error 400 "User already exists"
  | None =>
      let groups_list := parse_groups groups_field in
      put_user uname
        {| username := uname; password := hash_password pw;
           roles := [role]; groups := groups_list |} ;;
      for_each groups_list (fun g => setdefault_append g uname) ;;
      ret {| reg_msg := "User registered successfully"; reg_username := uname;
             reg_roles := [role]; reg_groups := groups_list |}
  end.

Definition login (now : Z) (uname pw : string) : handler TokenResponse :=
  let* user := authenticate_user uname pw in
  match user with
  | None => http_error 401 "Invalid credentials"
  | Some user =>
      let payload := identity_claims (username user) (roles user) (groups user) in
      let access := create_access_token sign settings now payload None in
      let refresh := create_refresh_token sign settings now payload in
      ret {| access_token := access; refresh_token_of := refresh;
             bearer := "bearer" |}
  end.

End CredentialStore.

Section Routes.

Variable sign : string -> string -> claims -> string.
Variable settings : Settings.

(** [POST /refresh]; returns the new access token. *)
Definition refresh_token (now : Z) (payload : claims) : handler token :=
  if negb (bool_decide (token_type payload = Some "refresh"))
  then http_error 401 "Invalid refresh token"
  else
    let* s := subscript "sub" (sub payload) in
    ret (create_access_token sign settings now
           (identity_claims s (default [] (claim_roles payload))
              (default [] (claim_groups payload)))
           None).

End Routes.

(** [GET /protected]; returns ["msg"] and ["roles"]. *)
Definition protected (payload : claims) : handler (string * option (list string)) :=
  ret ("Hello " ++ default "None" (sub payload), claim_roles payload).

Definition require_role (required_roles : list string) (payload : claims)
    : outcome claims :=
  let rs := default [] (claim_roles payload) in
  if negb (existsb (fun r => bool_decide (r ∈ rs)) required_roles)
  then HTTPException 403 "Forbidden: insufficient role"
  else Returns payload.


(** *** Group ledger *)

(** [fake_groups_db[name]] *)
Definition group_of (name : string) : handler Group :=
  let* gs := get_groups in
  subscript name (gs !! name).

(** [POST /groups/create]; returns ["msg"] and the stored group. *)
Definition create_group (group_name : string) (budget_ : float)
    (add_creator : bool) (payload : claims) : handler (string * Group) :=
  let* gs := get_groups in
  match gs !! group_name with
  | Some _ => http_error 400 "Group already exists"
  | None =>
      let* creator := subscript "sub" (sub payload) in
      put_group group_name
        {| admin := Some creator; budget := Some budget_; members := [];
           split_amount := Some 0%float; payments := Some ∅ |} ;;
      (if add_creator
       then modify_group group_name (fun g => set_members (members g ++ [creator]) g)
       else ret tt) ;;
      let* g := group_of group_name in
      let* s := lift (py_truediv budget_ (length (members g))) in
      modify_group group_name (set_split_amount s) ;;
      let* g := group_of group_name in
      for_each (members g) (fun member =>
        let* g := group_of group_name in
        let* ps := subscript "payments" (payments g) in
        modify_group group_name (set_payments (<[member := default_payment]> ps))) ;;
      let* g := group_of group_name in
      ret ("Group '" ++ group_name ++ "' created", g)
  end.

(** [group["payments"].setdefault(m, {"paid_amount": 0, "status": "unpaid"})] *)
Definition payments_setdefault (group_name m : string) : handler unit :=
  let* g := group_of group_name in
  let* ps := subscript "payments" (payments g) in
  match ps !! m with
  | Some _ => ret tt
  | None => modify_group group_name (set_payments (<[m := default_payment]> ps))
  end.

(** [fake_users_db[username]["groups"].append(group_name)] *)
Definition user_groups_append (uname group_name : string) : handler unit :=
  let* users := get_users in
  let* u := subscript uname (users !! uname) in
  put_user uname (set_groups (groups u ++ [group_name]) u).

(** The part of [add_user_to_group] under its comment "Recalculate
    split", down to the [return]. *)
Definition recalculate_split (uname group_name : string)
    : handler (string * float) :=
  let* group := group_of group_name in
  let total_members := length (members group) in
  let* b := subscript "budget" (budget group) in
  let* q := lift (py_truediv b total_members) in
  modify_group group_name (set_split_amount (py_round2 q)) ;;
  let* group := group_of group_name in
  for_each (members group) (payments_setdefault group_name) ;;
  let* group := group_of group_name in
  let* s := subscript "split_amount" (split_amount group) in
  ret ("User '" ++ uname ++ "' added", s).

(** [POST /groups/add-user]; returns ["msg"] and ["split_per_member"].
    [group] in the source is the dictionary held by [fake_groups_db], so
    every mutation of it is a mutation of the store. *)
Definition add_user_to_group (uname group_name : string)
    : handler (string * float) :=
  let* users := get_users in
  match users !! uname with
  | None => http_error 404 "User not found"
  | Some _ =>
      let* gs := get_groups in
      match gs !! group_name with
      | None => http_error 404 "Group not found"
      | Some group =>
          (if negb (bool_decide (uname ∈ members group))
           then
             modify_group group_name (fun g => set_members (members g ++ [uname]) g) ;;
             user_groups_append uname group_name
           else ret tt) ;;
          recalculate_split uname group_name
      end
  end.

(** *** Payment workflow *)

(** [POST /groups/{group_name}/pay]; returns ["msg"] and ["your_status"]. *)
Definition pay_share (group_name : string) (amount : float) (payload : claims)
    : handler (string * Payment) :=
  let* uname := subscript "sub" (sub payload) in
  let* gs := get_groups in
  match gs !! group_name with
  | None => http_error 403 "Not part of this group"
  | Some group =>
      if negb (bool_decide (uname ∈ members group))
      then http_error 403 "Not part of this group"
      else
        let* split := subscript "split_amount" (split_amount group) in
        let* ps := subscript "payments" (payments group) in
        let* payment := subscript uname (ps !! uname) in
        if py_gt amount split
        then http_error 400 "Exceeds threshold amount"
        else
          let payment' := {| paid_amount := amount; status_of := pending_approval |} in
          modify_group group_name (set_payments (<[uname := payment']> ps)) ;;
          ret ("Payment submitted, pending approval", payment')
  end.

(** The [if]/[elif]/[else] of [approve_payment]: the status it writes. *)
Definition decide_status (action : string) (paid split : float) : status :=
  if String.eqb action "approve" && py_eq paid split then approved
  else if String.eqb action "deny" then denied
  else pending.

(** [POST /groups/{group_name}/approve]; returns ["msg"] and ["details"]. *)
Definition approve_payment (group_name uname action : string) (payload : claims)
    : handler (string * Payment) :=
  let* gs := get_groups in
  match gs !! group_name with
  | None => http_error 404 "Group not found"
  | Some group =>
      let* caller := subscript "sub" (sub payload) in
      let* adm := subscript "admin" (admin group) in
      if negb (String.eqb caller adm)
      then http_error 403 "Only admin can approve payments"
      else
        let* ps := subscript "payments" (payments group) in
        match ps !! uname with
        | None => http_error 404 "User not in this group"
        | Some payment =>
            let* split := subscript "split_amount" (split_amount group) in
            let st' := decide_status action (paid_amount payment) split in
            let payment' := {| paid_amount := paid_amount payment; status_of := st' |} in
            modify_group group_name (set_payments (<[uname := payment']> ps)) ;;
            ret (uname ++ "'s payment " ++ status_str st', payment')
        end
  end.

(** [GET /groups/{group_name}/status] *)
Definition group_status (group_name : string) (payload : claims)
    : handler (string * Group) :=
  let* gs := get_groups in
  match gs !! group_name with
  | None => http_error 404 "Group not found"
  | Some group =>
      let* caller := subscript "sub" (sub payload) in
      if negb (bool_decide (caller ∈ members group))
      then http_error 403 "You are not part of this group"
      else ret (group_name, group)
  end.

(** [GET /groups] *)
Definition list_groups : handler (gmap string Group) := get_groups.

(** ** Observations on the store *)

(** The payment record of [uname] in group [group_name], if there is one. *)
Definition payment_in (st : store) (group_name uname : string) : option Payment :=
  match fake_groups_db st !! group_name with
  | Some g =>
      match payments g with
      | Some ps => ps !! uname
      | None => None
      end
  | None => None
  end.

Definition status_in (st : store) (group_name uname : string) : option status :=
  option_map status_of (payment_in st group_name uname).


(** A handler that leaves [fake_users_db] as it found it, whatever it
    returns or raises. *)
Definition keeps_users {A} (m : handler A) : Prop :=
  forall st, fake_users_db (snd (m st)) = fake_users_db st.

(** The payments dictionary after [setdefault] has run over a list of
    members. *)
Definition fill_payments (l : list string) (ps : gmap string Payment)
    : gmap string Payment :=
  fold_left
    (fun ps m => match ps !! m with
                 | Some _ => ps
                 | None => <[m := default_payment]> ps
                 end)
    l ps.

(** Every name in the members list has a payment record. *)
Definition every_member_has_payment (g : Group) : bool :=
  forallb
    (fun m => match payments g with
              | Some ps => bool_decide (is_Some (ps !! m))
              | None => false
              end)
    (members g).

(** [split_amount * |members|] is the budget, up to a cent per member. *)
Definition split_within_tolerance (g : Group) : bool :=
  match budget g, split_amount g with
  | Some b, Some s =>
      let n := float_of_nat (length (members g)) in
      PrimFloat.leb (PrimFloat.abs (s * n - b)) (n / 100)%float
  | _, _ => false
  end.

Definition ledger_invariant (st : store) : Prop :=
  forall name g,
    fake_groups_db st !! name = Some g ->
    split_within_tolerance g = true /\ every_member_has_payment g = true.

(** The five operations of the ledger, as requests that have passed the
    token check. *)
Inductive request : Type :=
  | Register (uname pw role groups_field : string)
  | CreateGroup (group_name : string) (budget_ : float) (add_creator : bool)
      (payload : claims)
  | AddMember (uname group_name : string)
  | SubmitPayment (group_name : string) (amount : float) (payload : claims)
  | DecidePayment (group_name uname action : string) (payload : claims).

Section Requests.

Variable hash_password : string -> string.

Definition serve (r : request) (st : store) : store :=
  match r with
  | Register u pw role gs => snd (register hash_password u pw role gs st)
  | CreateGroup n b add p => snd (create_group n b add p st)
  | AddMember u n => snd (add_user_to_group u n st)
  | SubmitPayment n a p => snd (pay_share n a p st)
  | DecidePayment n u a p => snd (approve_payment n u a p st)
  end.

Definition serve_all (rs : list request) (st : store) : store :=
  fold_left (fun st r => serve r st) rs st.

End Requests.

(** ** Statements that the code is checked against *)

(** "approved is terminal": neither a submission by the member nor a
    decision by the admin changes the status of an approved payment. *)
Definition approved_is_terminal : Prop :=
  forall st group_name uname g ps p,
    fake_groups_db st !! group_name = Some g ->
    payments g = Some ps ->
    ps !! uname = Some p ->
    status_of p = approved ->
    (forall amount payload,
        sub payload = Some uname ->
        status_in (snd (pay_share group_name amount payload st)) group_name uname
        = Some approved) /\
    (forall action payload,
        sub payload = admin g ->
        status_in (snd (approve_payment group_name uname action payload st))
          group_name uname
        = Some approved).

(** "approve with a differing amount leaves the status unchanged". *)
Definition short_approval_keeps_status : Prop :=
  forall st group_name uname payload g adm ps p split,
    fake_groups_db st !! group_name = Some g ->
    admin g = Some adm ->
    sub payload = Some adm ->
    payments g = Some ps ->
    ps !! uname = Some p ->
    split_amount g = Some split ->
    py_eq (paid_amount p) split = false ->
    status_in (snd (approve_payment group_name uname "approve" payload st))
      group_name uname
    = Some (status_of p).

(** "a budget that is not positive is rejected and nothing is created". *)
Definition nonpositive_budget_rejected : Prop :=
  forall st group_name b add_creator payload,
    py_le b 0 = true ->
    exists code detail,
      create_group group_name b add_creator payload st
      = (HTTPException code detail, st).

(** "an access-only check rejects a refresh token": presented to
    [GET /protected], a refresh token makes the request fail. *)
Definition refresh_token_rejected_by_protected : Prop :=
  forall sign settings now data clock st,
  exists code detail,
    fst (Depends sign settings clock
           (create_refresh_token sign settings now data) protected st)
    = HTTPException code detail.


(** ** A store to evaluate the routes on

    Group ["trip"]: budget 300 split between alice (the admin, nothing
    paid yet) and bob (150 paid and approved). *)

Definition alice : claims := identity_claims "alice" ["user"] [].
Definition bob : claims := identity_claims "bob" ["user"] ["trip"].

Definition bob_paid : Payment := {| paid_amount := 150; status_of := approved |}.

Definition trip_payments : gmap string Payment :=
  <["bob" := bob_paid]> (<["alice" := default_payment]> ∅).

Definition trip : Group :=
  {| admin := Some "alice"; budget := Some 300%float;
     members := ["alice"; "bob"]; split_amount := Some 150%float;
     payments := Some trip_payments |}.

Definition trip_store : store :=
  {| fake_users_db := ∅; fake_groups_db := <["trip" := trip]> ∅ |}.

(** carol is registered and belongs to no group. *)
Definition carol_user : User :=
  {| username := "carol"; password := "$pbkdf2-sha256$carol";
     roles := ["user"]; groups := [] |}.

Definition carol_store : store :=
  {| fake_users_db := <["carol" := carol_user]> ∅;
     fake_groups_db := <["trip" := trip]> ∅ |}.

(** ** Membership written by [register] *)

(** One round of the loop of [register] on the groups dictionary. *)
Definition join_group (uname : string) (gs : gmap string Group) (g : string)
    : gmap string Group :=
  let grp := default members_only (gs !! g) in
  <[g := set_members (members grp ++ [uname]) grp]> gs.

(** The groups dictionary after the loop of [register] over [gl]. *)
Definition join_groups (uname : string) (gl : list string)
    (gs : gmap string Group) : gmap string Group :=
  fold_left (join_group uname) gl gs.

(** A stand-in for passlib's context in evaluations: the hash is the
    password behind a prefix, and verification compares. *)
Definition toy_hash (pw : string) : string := "$toy$" ++ pw.
Definition toy_verify (pw hashed : string) : bool :=
  String.eqb hashed (toy_hash pw).

(** U+00A0 (no-break space) and U+2003 (em space) in UTF-8. *)
Definition nbsp : string :=
  String (ascii_of_nat 194) (String (ascii_of_nat 160) EmptyString).
Definition em_space : string :=
  String (ascii_of_nat 226)
    (String (ascii_of_nat 128) (String (ascii_of_nat 131) EmptyString)).

(** A stand-in for the library's MAC in evaluations. *)
Definition toy_sign (alg key : string) (payload : claims) : string :=
  alg ++ ":" ++ key ++ ":" ++ default "" (sub payload).

(** Whether a string holds a comma. *)
Fixpoint has_comma (s : string) : bool :=
  match s with
  | EmptyString => false
  | String c s' => Ascii.eqb c "," || has_comma s'
  end.

(** dave has registered with password "pw" as an admin. *)
Definition dave_user : User :=
  {| username := "dave"; password := toy_hash "pw";
     roles := ["admin"]; groups := ["trip"] |}.

Definition dave_store : store :=
  {| fake_users_db := <["dave" := dave_user]> (<["carol" := carol_user]> ∅);
     fake_groups_db := <["trip" := trip]> ∅ |}.

(** ** What a request may change *)

(** A user record after later requests: same name, password hash and
    roles; the groups list may have got longer. *)
Definition user_kept (u u' : User) : Prop :=
  username u' = username u /\ password u' = password u /\
  roles u' = roles u /\ exists more, groups u' = (groups u ++ more)%list.

(** [uname] has a payment record in [g]. *)
Definition has_payment (g : Group) (uname : string) : Prop :=
  exists ps p, payments g = Some ps /\ ps !! uname = Some p.

(** A group after later requests: same admin and budget; the members list
    may have got longer; nobody has lost their payment record. *)
Definition group_kept (g g' : Group) : Prop :=
  admin g' = admin g /\ budget g' = budget g /\
  (exists more, members g' = (members g ++ more)%list) /\
  (forall uname, has_payment g uname -> has_payment g' uname).

Definition evolves (st st' : store) : Prop :=
  (forall name u, fake_users_db st !! name = Some u ->
     exists u', fake_users_db st' !! name = Some u' /\ user_kept u u') /\
  (forall name g, fake_groups_db st !! name = Some g ->
     exists g', fake_groups_db st' !! name = Some g' /\ group_kept g g').

Definition evolving {A} (m : handler A) : Prop :=
  forall st, evolves st (snd (m st)).

(** ** The well-formed ledger *)

(** A group with all five keys, a payment record for every member, and a
    share that is what the last writer computed from the budget and the
    member count: 0 while there is no member, [budget / n] from
    [create_group], [round(budget / n, 2)] from [add_user_to_group]. *)
Definition well_formed_group (g : Group) : Prop :=
  is_Some (admin g) /\
  is_Some (payments g) /\
  every_member_has_payment g = true /\
  exists b s,
    budget g = Some b /\ split_amount g = Some s /\
    match members g with
    | [] => s = 0%float
    | _ => s = (b / float_of_nat (length (members g)))%float \/
           s = py_round2 (b / float_of_nat (length (members g)))
    end.

Definition ledger_well_formed (st : store) : Prop :=
  forall name g, fake_groups_db st !! name = Some g -> well_formed_group g.

(** Requests other than a registration that names a group. *)
Definition names_no_group (r : request) : bool :=
  match r with
  | Register _ _ _ groups_field =>
      match parse_groups groups_field with
      | [] => true
      | _ => false
      end
  | _ => true
  end.

(** * Proofs *)

Ltac run_handler :=
  cbv beta iota zeta delta
    [bind ret http_error key_error lift subscript get_groups get_users
     put_group put_user modify_group group_of];
  simpl.

(** ** Float comparisons *)

Lemma SFcompare_antisym x y :
  SFcompare y x = option_map CompOpp (SFcompare x y).
Proof.
  destruct x as [[]|[]| |[] mx ex], y as [[]|[]| |[] my ey];
    simpl; try reflexivity;
    rewrite (Z.compare_antisym ey ex); destruct (ey ?= ex)%Z;
    simpl; try reflexivity;
    rewrite (Pos.compare_cont_antisym mx my Eq); simpl; try reflexivity.
  all: rewrite ?CompOpp_involutive; reflexivity.
Qed.

(** [a <= b] excludes [a > b], NaN included. *)
Lemma py_le_not_gt a b : py_le a b = true -> py_gt a b = false.
Proof.
  unfold py_le, py_gt. rewrite leb_spec, ltb_spec.
  unfold SFleb, SFltb. rewrite (SFcompare_antisym (Prim2SF a) (Prim2SF b)).
  destruct (SFcompare (Prim2SF a) (Prim2SF b)) as [[]|]; simpl; congruence.
Qed.

(** ** Payment workflow *)

Lemma payment_in_put st group_name uname g ps p :
  payment_in
    {| fake_users_db := fake_users_db st;
       fake_groups_db :=
         <[group_name := set_payments (<[uname := p]> ps) g]> (fake_groups_db st) |}
    group_name uname
  = Some p.
Proof.
  unfold payment_in; simpl.
  rewrite lookup_insert_eq; simpl. apply lookup_insert_eq.
Qed.

(** What [pay_share] does once the caller is a member with a record:
    the comparison [amount > split] alone decides. *)
Lemma pay_share_member st group_name amount payload uname g split ps p :
  sub payload = Some uname ->
  fake_groups_db st !! group_name = Some g ->
  uname ∈ members g ->
  split_amount g = Some split ->
  payments g = Some ps ->
  ps !! uname = Some p ->
  pay_share group_name amount payload st
  = if py_gt amount split
    then (HTTPException 400 "Exceeds threshold amount", st)
    else
      let p' := {| paid_amount := amount; status_of := pending_approval |} in
      (Returns ("Payment submitted, pending approval", p'),
       {| fake_users_db := fake_users_db st;
          fake_groups_db :=
            <[group_name := set_payments (<[uname := p']> ps) g]>
              (fake_groups_db st) |}).
Proof.
  intros Hsub Hg Hm Hs Hps Hp.
  unfold pay_share. run_handler.
  rewrite Hsub; simpl. rewrite Hg.
  rewrite bool_decide_eq_true_2 by assumption; simpl.
  rewrite Hs; simpl. rewrite Hps; simpl. rewrite Hp; simpl.
  destruct (py_gt amount split); [reflexivity|].
  run_handler. rewrite Hg. reflexivity.
Qed.

(** X28: for a member who has a payment record, a submission above the
    share fails with 400 "Exceeds threshold amount" and leaves the whole
    store, hence the member's payment record (amount and status), as it
    was. *)
Theorem pay_share_overpayment_rejected
    st group_name amount payload uname g split ps p :
  sub payload = Some uname ->
  fake_groups_db st !! group_name = Some g ->
  uname ∈ members g ->
  split_amount g = Some split ->
  payments g = Some ps ->
  ps !! uname = Some p ->
  py_gt amount split = true ->
  pay_share group_name amount payload st
  = (HTTPException 400 "Exceeds threshold amount", st)
  /\ payment_in (snd (pay_share group_name amount payload st)) group_name uname
     = Some p.
Proof.
  intros Hsub Hg Hm Hs Hps Hp Hgt.
  rewrite (pay_share_member st group_name amount payload uname g split ps p)
    by assumption.
  rewrite Hgt. split; [reflexivity|].
  unfold payment_in; simpl. rewrite Hg, Hps. exact Hp.
Qed.

Lemma pay_share_overpayment_rejected_witness :
  pay_share "trip" 200 bob trip_store
  = (HTTPException 400 "Exceeds threshold amount", trip_store)
  /\ payment_in (snd (pay_share "trip" 200 bob trip_store)) "trip" "bob"
     = Some bob_paid.
Proof.
  apply (pay_share_overpayment_rejected trip_store "trip" 200 bob "bob" trip
           150 trip_payments bob_paid).
  - reflexivity.
  - reflexivity.
  - apply (bool_decide_unpack _). vm_compute. exact I.
  - reflexivity.
  - reflexivity.
  - reflexivity.
  - vm_compute. reflexivity.
Defined.

(** X29: [pay_share] has no lower bound on the amount.  For a member
    with a payment record, every amount that is at most the share (zero
    and negative amounts too) is accepted: the record then holds that
    amount with status [pending_approval]. *)
Theorem pay_share_no_lower_bound
    st group_name amount payload uname g split ps p :
  sub payload = Some uname ->
  fake_groups_db st !! group_name = Some g ->
  uname ∈ members g ->
  split_amount g = Some split ->
  payments g = Some ps ->
  ps !! uname = Some p ->
  py_le amount split = true ->
  let p' := {| paid_amount := amount; status_of := pending_approval |} in
  fst (pay_share group_name amount payload st)
  = Returns ("Payment submitted, pending approval", p')
  /\ payment_in (snd (pay_share group_name amount payload st)) group_name uname
     = Some p'.
Proof.
  intros Hsub Hg Hm Hs Hps Hp Hle p'.
  rewrite (pay_share_member st group_name amount payload uname g split ps p)
    by assumption.
  rewrite (py_le_not_gt _ _ Hle). simpl. split; [reflexivity|].
  apply payment_in_put.
Qed.

Lemma pay_share_no_lower_bound_witness :
  let p' := {| paid_amount := (-5)%float; status_of := pending_approval |} in
  fst (pay_share "trip" (-5) alice trip_store)
  = Returns ("Payment submitted, pending approval", p')
  /\ payment_in (snd (pay_share "trip" (-5) alice trip_store)) "trip" "alice"
     = Some p'.
Proof.
  apply (pay_share_no_lower_bound trip_store "trip" (-5) alice "alice" trip
           150 trip_payments default_payment).
  - reflexivity.
  - reflexivity.
  - apply (bool_decide_unpack _). vm_compute. exact I.
  - reflexivity.
  - reflexivity.
  - reflexivity.
  - vm_compute. reflexivity.
Defined.

(** ** Token service *)


Lemma jwt_decode_own_token sign settings payload clock :
  jwt_decode sign
    (jwt_encode sign payload (SECRET_KEY settings) (ALGORITHM settings))
    (SECRET_KEY settings) [ALGORITHM settings] clock
  = match exp payload with
    | Some e =>
        if py_int_le_float (numeric_date e) clock then inr ExpiredSignatureError
        else inl {| sub := sub payload; claim_roles := claim_roles payload;
                    claim_groups := claim_groups payload;
                    exp := Some (NumericDate (numeric_date e));
                    token_type := token_type payload |}
    | None =>
        inl {| sub := sub payload; claim_roles := claim_roles payload;
               claim_groups := claim_groups payload;
               exp := None; token_type := token_type payload |}
    end.
Proof.
  unfold jwt_decode, jwt_encode.
  rewrite bool_decide_eq_true_2 by apply list_elem_of_here.
  rewrite String.eqb_refl. simpl.
  destruct (exp payload) as [e|]; reflexivity.
Qed.




(** Near the epoch the clock tells the two instants apart: one
    microsecond before second 1800 the token still verifies. *)
Example timestamp_before_expiry :
  py_float_lt_int (timestamp 1799999999) 1800 = true /\
  timestamp 20000001799999999 = 20000001800%float.
Proof. repeat split; vm_compute; reflexivity. Qed.

(** The expiry is a whole second: a token issued half a second past the
    epoch is already expired at 1800.2 s, before issue time plus the
    lifetime (1800.5 s). *)
Example exp_drops_microseconds :
  get_token_payload toy_sign default_settings (timestamp 1800200000)
    (create_access_token toy_sign default_settings 500000
       (identity_claims "alice" ["user"] []) None)
  = HTTPException 401 "Token expired".
Proof. vm_compute. reflexivity. Qed.

(** [expires_delta or timedelta(...)]: a zero delta is falsy, so the
    default lifetime is used. *)
Example zero_delta_uses_default :
  create_access_token toy_sign default_settings 0 alice (Some 0)
  = create_access_token toy_sign default_settings 0 alice None.
Proof. reflexivity. Qed.

(** The token check does not look at ["token_type"]: a refresh token that
    has not expired decodes like any other token. *)
Lemma get_token_payload_refresh sign settings now data clock :
  py_int_le_float
    ((now + timedelta_days (REFRESH_TOKEN_EXPIRE_DAYS settings)) / usec_per_sec)
    clock = false ->
  exists p,
    get_token_payload sign settings clock
      (create_refresh_token sign settings now data)
    = Returns p /\
    token_type p = Some "refresh" /\
    sub p = sub data /\ claim_roles p = claim_roles data.
Proof.
  intros Ht. unfold get_token_payload, create_refresh_token.
  rewrite jwt_decode_own_token. simpl. rewrite Ht.
  eexists. repeat split; reflexivity.
Qed.

(** C3, as the code behaves: a refresh token that has not expired by the
    verifier's clock is accepted by [GET /protected], which answers for
    its subject as it would for an access token. *)
Theorem protected_accepts_refresh_token sign settings now data clock st :
  py_int_le_float
    ((now + timedelta_days (REFRESH_TOKEN_EXPIRE_DAYS settings)) / usec_per_sec)
    clock = false ->
  Depends sign settings clock (create_refresh_token sign settings now data)
    protected st
  = (Returns ("Hello " ++ default "None" (sub data), claim_roles data), st).
Proof.
  intros Ht.
  destruct (get_token_payload_refresh sign settings now data clock Ht)
    as (p & Hp & _ & Hsub & Hroles).
  unfold Depends, protected. run_handler. rewrite Hp.
  rewrite Hsub, Hroles. reflexivity.
Qed.

Lemma protected_accepts_refresh_token_witness :
  Depends toy_sign default_settings 1
    (create_refresh_token toy_sign default_settings 0 alice) protected
    empty_store
  = (Returns ("Hello alice", Some ["user"]), empty_store).
Proof.
  apply (protected_accepts_refresh_token toy_sign default_settings 0 alice 1
           empty_store).
  vm_compute. reflexivity.
Defined.

(** The statement of C3 fails on the code. *)
Lemma refresh_token_not_rejected : ~ refresh_token_rejected_by_protected.
Proof.
  intros H.
  destruct (H toy_sign default_settings 0 alice 1%float empty_store)
    as (c & d & Hc).
  vm_compute in Hc. discriminate.
Qed.

(** The refresh route does tell the two types apart: an access token is
    turned away there. *)
Lemma refresh_rejects_access_token sign settings now now' data clock st :
  py_int_le_float
    ((now + timedelta_minutes (ACCESS_TOKEN_EXPIRE_MINUTES settings))
     / usec_per_sec)
    clock = false ->
  Depends sign settings clock (create_access_token sign settings now data None)
    (refresh_token sign settings now') st
  = (HTTPException 401 "Invalid refresh token", st).
Proof.
  intros Ht. unfold Depends, get_token_payload, create_access_token.
  rewrite jwt_decode_own_token. simpl.
  run_handler. rewrite Ht. reflexivity.
Qed.

(** ** Group ledger *)

Ltac run_store :=
  run_handler;
  repeat (first [rewrite lookup_insert_eq | rewrite insert_insert_eq];
          run_handler).

Section Frame.

Context {A B : Type}.

Lemma keeps_users_ret (a : A) : keeps_users (ret a).
Proof. intros st; reflexivity. Qed.

Lemma keeps_users_http_error c d : keeps_users (@http_error A c d).
Proof. intros st; reflexivity. Qed.

Lemma keeps_users_key_error k : keeps_users (@key_error A k).
Proof. intros st; reflexivity. Qed.

Lemma keeps_users_lift (o : outcome A) : keeps_users (lift o).
Proof. intros st; reflexivity. Qed.

Lemma keeps_users_subscript k (o : option A) : keeps_users (subscript k o).
Proof. intros st; destruct o; reflexivity. Qed.

Lemma keeps_users_bind (m : handler A) (k : A -> handler B) :
  keeps_users m -> (forall a, keeps_users (k a)) -> keeps_users (bind m k).
Proof.
  intros Hm Hk st. unfold bind.
  specialize (Hm st). destruct (m st) as [[a| | |] st']; simpl in *; try assumption.
  rewrite Hk. assumption.
Qed.

End Frame.

Lemma keeps_users_get_groups : keeps_users get_groups.
Proof. intros st; reflexivity. Qed.

Lemma keeps_users_get_users : keeps_users get_users.
Proof. intros st; reflexivity. Qed.

Lemma keeps_users_put_group name g : keeps_users (put_group name g).
Proof. intros st; reflexivity. Qed.

Lemma keeps_users_for_each {A} (l : list A) body :
  (forall x, keeps_users (body x)) -> keeps_users (for_each l body).
Proof.
  intros Hbody. induction l as [|x l IH]; simpl.
  - apply keeps_users_ret.
  - apply keeps_users_bind; [apply Hbody | intros _; exact IH].
Qed.

Ltac frame :=
  repeat first
    [ apply keeps_users_ret | apply keeps_users_http_error
    | apply keeps_users_key_error | apply keeps_users_lift
    | apply keeps_users_subscript | apply keeps_users_get_groups
    | apply keeps_users_get_users | apply keeps_users_put_group
    | apply keeps_users_for_each; intros
    | apply keeps_users_bind; [|intros]
    | match goal with
      | |- keeps_users (match ?x with _ => _ end) => destruct x
      | |- keeps_users (if ?x then _ else _) => destruct x
      end ].

Lemma keeps_users_modify_group name f : keeps_users (modify_group name f).
Proof. unfold modify_group. frame. Qed.

Lemma keeps_users_group_of name : keeps_users (group_of name).
Proof. unfold group_of. frame. Qed.

Lemma keeps_users_create_group name b add payload :
  keeps_users (create_group name b add payload).
Proof.
  unfold create_group.
  pose proof keeps_users_modify_group. pose proof keeps_users_group_of.
  frame; auto.
Qed.

Lemma keeps_users_payments_setdefault name m :
  keeps_users (payments_setdefault name m).
Proof.
  unfold payments_setdefault.
  pose proof keeps_users_modify_group. pose proof keeps_users_group_of.
  frame; auto.
Qed.

Lemma keeps_users_recalculate_split uname name :
  keeps_users (recalculate_split uname name).
Proof.
  unfold recalculate_split.
  pose proof keeps_users_modify_group. pose proof keeps_users_group_of.
  pose proof keeps_users_payments_setdefault.
  frame; auto.
Qed.

Lemma bind_returns {A B} (m : handler A) (k : A -> handler B) st a st' :
  m st = (Returns a, st') -> bind m k st = k a st'.
Proof. intros H. unfold bind. rewrite H. reflexivity. Qed.

(** [login] reads [fake_users_db] only. *)
Lemma login_reads_users_only verify_password sign settings now uname pw st1 st2 :
  fake_users_db st1 = fake_users_db st2 ->
  fst (login verify_password sign settings now uname pw st1)
  = fst (login verify_password sign settings now uname pw st2).
Proof.
  intros H. unfold login, authenticate_user. run_handler. rewrite H.
  destruct (fake_users_db st2 !! uname) as [u|]; simpl; [|reflexivity].
  destruct (verify_password pw (password u)); reflexivity.
Qed.

(** Joining through [add_user_to_group] does write the user record, even
    when the recalculation that follows raises. *)
Lemma add_user_to_group_updates_user st uname group_name u g :
  fake_users_db st !! uname = Some u ->
  fake_groups_db st !! group_name = Some g ->
  uname ∉ members g ->
  fake_users_db (snd (add_user_to_group uname group_name st)) !! uname
  = Some (set_groups (groups u ++ [group_name]) u).
Proof.
  intros Hu Hg Hm. unfold add_user_to_group.
  rewrite (bind_returns _ _ st (fake_users_db st) st) by reflexivity.
  rewrite Hu.
  rewrite (bind_returns _ _ st (fake_groups_db st) st) by reflexivity.
  rewrite Hg.
  rewrite bool_decide_eq_false_2 by assumption. simpl.
  erewrite bind_returns.
  2:{ unfold user_groups_append. run_handler. rewrite Hg. run_handler.
      rewrite Hu. reflexivity. }
  rewrite keeps_users_recalculate_split. simpl.
  apply lookup_insert_eq.
Qed.

(** C9: [create_group] leaves [fake_users_db] as it was, whether it
    returns or raises and whether or not the creator becomes a member; so
    a login after the call issues the same tokens (same groups claim) as
    a login before it.  Joining through [add_user_to_group], in contrast,
    appends the group's name to the user's stored groups. *)
Theorem create_group_keeps_user_records :
  (forall group_name b add_creator payload st,
      fake_users_db (snd (create_group group_name b add_creator payload st))
      = fake_users_db st) /\
  (forall verify_password sign settings now uname pw
          group_name b add_creator payload st,
      fst (login verify_password sign settings now uname pw
             (snd (create_group group_name b add_creator payload st)))
      = fst (login verify_password sign settings now uname pw st)) /\
  (forall st uname group_name u g,
      fake_users_db st !! uname = Some u ->
      fake_groups_db st !! group_name = Some g ->
      uname ∉ members g ->
      fake_users_db (snd (add_user_to_group uname group_name st)) !! uname
      = Some (set_groups (groups u ++ [group_name]) u)).
Proof.
  split; [|split].
  - intros. apply keeps_users_create_group.
  - intros. apply login_reads_users_only, keeps_users_create_group.
  - apply add_user_to_group_updates_user.
Qed.

Lemma create_group_keeps_user_records_witness :
  fake_users_db (snd (create_group "picnic" 90 true alice carol_store))
  = fake_users_db carol_store /\
  fake_users_db (snd (add_user_to_group "carol" "trip" carol_store)) !! "carol"
  = Some (set_groups ["trip"] carol_user).
Proof.
  split.
  - apply (proj1 create_group_keeps_user_records).
  - apply (proj2 (proj2 create_group_keeps_user_records) carol_store "carol"
             "trip" carol_user trip).
    + reflexivity.
    + reflexivity.
    + apply (bool_decide_unpack _). vm_compute. exact I.
Defined.

(** What [create_group] does on a free name when the creator is not
    added: the stored group has no member, and the division raises. *)
Lemma create_group_without_creator st group_name b payload creator :
  fake_groups_db st !! group_name = None ->
  sub payload = Some creator ->
  create_group group_name b false payload st
  = (ZeroDivisionError,
     {| fake_users_db := fake_users_db st;
        fake_groups_db :=
          <[group_name :=
              {| admin := Some creator; budget := Some b; members := [];
                 split_amount := Some 0%float; payments := Some ∅ |}]>
            (fake_groups_db st) |}).
Proof.
  intros Hfree Hsub. unfold create_group. run_handler.
  rewrite Hfree, Hsub. run_store. reflexivity.
Qed.

(** C2, as the code behaves: with [add_creator] false the member list is
    empty when [budget / len(members)] is evaluated, so [create_group]
    raises [ZeroDivisionError] for every budget; the group it had already
    stored stays in [fake_groups_db] with [split_amount] 0. *)
Theorem create_group_without_creator_raises st group_name b payload creator :
  fake_groups_db st !! group_name = None ->
  sub payload = Some creator ->
  fst (create_group group_name b false payload st) = ZeroDivisionError /\
  fake_groups_db (snd (create_group group_name b false payload st)) !! group_name
  = Some {| admin := Some creator; budget := Some b; members := [];
            split_amount := Some 0%float; payments := Some ∅ |}.
Proof.
  intros Hfree Hsub.
  rewrite (create_group_without_creator st group_name b payload creator)
    by assumption.
  split; [reflexivity|]. simpl. apply lookup_insert_eq.
Qed.

Lemma create_group_without_creator_raises_witness :
  fst (create_group "trip" 300 false alice empty_store) = ZeroDivisionError /\
  fake_groups_db (snd (create_group "trip" 300 false alice empty_store)) !! "trip"
  = Some {| admin := Some "alice"; budget := Some 300%float; members := [];
            split_amount := Some 0%float; payments := Some ∅ |}.
Proof.
  apply (create_group_without_creator_raises empty_store "trip" 300 alice "alice").
  - reflexivity.
  - reflexivity.
Defined.

(** What [create_group] does on a free name when the creator is added. *)
Lemma create_group_with_creator st group_name b payload creator :
  fake_groups_db st !! group_name = None ->
  sub payload = Some creator ->
  let g :=
    {| admin := Some creator; budget := Some b; members := [creator];
       split_amount := Some (b / 1)%float;
       payments := Some (<[creator := default_payment]> ∅) |} in
  create_group group_name b true payload st
  = (Returns ("Group '" ++ group_name ++ "' created", g),
     {| fake_users_db := fake_users_db st;
        fake_groups_db := <[group_name := g]> (fake_groups_db st) |}).
Proof.
  intros Hfree Hsub g. unfold create_group. run_handler.
  rewrite Hfree, Hsub. run_store. reflexivity.
Qed.

(** C7, as the code behaves: [create_group] never looks at the sign of
    the budget.  On a free name, with the creator added, it succeeds for
    every budget, zero and negative ones included, and stores the group
    with that budget, the creator as only member, a share of
    [budget / 1] and the creator's default payment. *)
Theorem create_group_any_budget st group_name b payload creator :
  fake_groups_db st !! group_name = None ->
  sub payload = Some creator ->
  let g :=
    {| admin := Some creator; budget := Some b; members := [creator];
       split_amount := Some (b / 1)%float;
       payments := Some (<[creator := default_payment]> ∅) |} in
  fst (create_group group_name b true payload st)
  = Returns ("Group '" ++ group_name ++ "' created", g) /\
  fake_groups_db (snd (create_group group_name b true payload st)) !! group_name
  = Some g.
Proof.
  intros Hfree Hsub g.
  rewrite (create_group_with_creator st group_name b payload creator)
    by assumption.
  split; [reflexivity|]. simpl. apply lookup_insert_eq.
Qed.

Lemma create_group_any_budget_witness :
  let g :=
    {| admin := Some "alice"; budget := Some (-5)%float; members := ["alice"];
       split_amount := Some (-5)%float;
       payments := Some (<["alice" := default_payment]> ∅) |} in
  py_le (-5) 0 = true /\
  fst (create_group "debt" (-5) true alice empty_store)
  = Returns ("Group 'debt' created", g) /\
  fake_groups_db (snd (create_group "debt" (-5) true alice empty_store)) !! "debt"
  = Some g.
Proof.
  split; [vm_compute; reflexivity|].
  apply (create_group_any_budget empty_store "debt" (-5) alice "alice").
  - reflexivity.
  - reflexivity.
Defined.

(** The statement of C7 fails on the code: a budget of -5 is accepted. *)
Lemma nonpositive_budget_accepted : ~ nonpositive_budget_rejected.
Proof.
  intros H.
  destruct (H empty_store "debt" (-5)%float true alice) as (c & d & Hc).
  - vm_compute. reflexivity.
  - rewrite (create_group_with_creator empty_store "debt" (-5) alice "alice")
      in Hc by reflexivity.
    discriminate.
Qed.

(** C1, as the code behaves: [register] appends the new user to the
    members of a listed group and stops there; it neither creates a
    payment record nor recomputes the share.  After alice creates "trip"
    with budget 300 and bob registers with groups "trip", the group has
    two members, one payment record and a share of 300, so the invariant
    fails, and bob's submission raises [KeyError]. *)
Theorem register_breaks_ledger_invariant hash_password :
  let st :=
    serve_all hash_password
      [CreateGroup "trip" 300 true alice; Register "bob" "pw" "user" "trip"]
      empty_store in
  fake_groups_db st !! "trip"
  = Some {| admin := Some "alice"; budget := Some 300%float;
            members := ["alice"; "bob"]; split_amount := Some 300%float;
            payments := Some (<["alice" := default_payment]> ∅) |} /\
  payment_in st "trip" "bob" = None /\
  fst (pay_share "trip" 100 bob st) = KeyError "bob" /\
  (forall g, fake_groups_db st !! "trip" = Some g ->
             every_member_has_payment g = false /\
             split_within_tolerance g = false) /\
  ~ ledger_invariant st.
Proof.
  intros st.
  assert (Hg : fake_groups_db st !! "trip"
               = Some {| admin := Some "alice"; budget := Some 300%float;
                         members := ["alice"; "bob"];
                         split_amount := Some 300%float;
                         payments := Some (<["alice" := default_payment]> ∅) |})
    by (vm_compute; reflexivity).
  split; [exact Hg|]. split; [vm_compute; reflexivity|].
  split; [vm_compute; reflexivity|].
  split.
  { intros g. rewrite Hg. intros [= <-]. split; vm_compute; reflexivity. }
  intros Hinv. destruct (Hinv _ _ Hg) as [Hsplit _].
  vm_compute in Hsplit. discriminate.
Qed.

(** C6, as the code behaves: [pay_share] reads the caller's payment
    record before it compares the amount with the share.  bob, a member
    of "trip" through [register] and so without a record, submits 400
    against a share of 300: the call raises [KeyError] on his name and
    not the 400 "Exceeds threshold amount" that a member with a record
    gets.  The store is left as it was. *)
Theorem overpayment_without_record_raises hash_password :
  let st :=
    serve_all hash_password
      [CreateGroup "trip" 300 true alice; Register "bob" "pw" "user" "trip"]
      empty_store in
  (exists g, fake_groups_db st !! "trip" = Some g /\
             "bob" ∈ members g /\ split_amount g = Some 300%float) /\
  py_gt 400 300 = true /\
  pay_share "trip" 400 bob st = (KeyError "bob", st).
Proof.
  intros st. split; [|split].
  - eexists. split; [vm_compute; reflexivity|].
    split; [|reflexivity]. simpl. set_solver.
  - vm_compute. reflexivity.
  - vm_compute. reflexivity.
Qed.

(** C10, as the code behaves: the same member without a record submits
    -5, which is at most the share of 300: the call raises [KeyError] on
    his name, returns nothing and stores nothing, where a member with a
    record would see the amount accepted. *)
Theorem small_payment_without_record_raises hash_password :
  let st :=
    serve_all hash_password
      [CreateGroup "trip" 300 true alice; Register "bob" "pw" "user" "trip"]
      empty_store in
  (exists g, fake_groups_db st !! "trip" = Some g /\
             "bob" ∈ members g /\ split_amount g = Some 300%float) /\
  py_le (-5) 300 = true /\
  pay_share "trip" (-5) bob st = (KeyError "bob", st) /\
  payment_in (snd (pay_share "trip" (-5) bob st)) "trip" "bob" = None.
Proof.
  intros st. split; [|split; [|split]].
  - eexists. split; [vm_compute; reflexivity|].
    split; [|reflexivity]. simpl. set_solver.
  - vm_compute. reflexivity.
  - vm_compute. reflexivity.
  - vm_compute. reflexivity.
Qed.

(** *** The sibling path: [add_user_to_group] *)

Lemma set_payments_same g ps : payments g = Some ps -> set_payments ps g = g.
Proof. destruct g; simpl; intros ->; reflexivity. Qed.

Lemma store_insert_same st name g :
  fake_groups_db st !! name = Some g ->
  {| fake_users_db := fake_users_db st;
     fake_groups_db := <[name := g]> (fake_groups_db st) |} = st.
Proof. intros H. rewrite insert_id by assumption. destruct st; reflexivity. Qed.

Lemma for_each_payments_setdefault name l :
  forall st g ps,
    fake_groups_db st !! name = Some g ->
    payments g = Some ps ->
    for_each l (payments_setdefault name) st
    = (Returns tt,
       {| fake_users_db := fake_users_db st;
          fake_groups_db :=
            <[name := set_payments (fill_payments l ps) g]> (fake_groups_db st) |}).
Proof.
  induction l as [|m l IH]; intros st g ps Hg Hps; simpl.
  - rewrite set_payments_same by assumption.
    rewrite store_insert_same by assumption. reflexivity.
  - unfold payments_setdefault at 1. run_handler. rewrite Hg. run_handler.
    rewrite Hps. run_handler.
    destruct (ps !! m) as [p|] eqn:Hm; run_handler.
    + apply (IH st g ps Hg Hps).
    + rewrite Hg.
      rewrite (IH _ (set_payments (<[m := default_payment]> ps) g)
                 (<[m := default_payment]> ps)); simpl.
      * rewrite insert_insert_eq. reflexivity.
      * apply lookup_insert_eq.
      * reflexivity.
Qed.

Lemma fill_payments_keeps l : forall ps m,
  is_Some (ps !! m) -> is_Some (fill_payments l ps !! m).
Proof.
  induction l as [|x l IH]; intros ps m Hm; simpl; [assumption|].
  apply IH. destruct (ps !! x) eqn:Hx; [assumption|].
  destruct (decide (x = m)) as [->|Hne].
  - rewrite lookup_insert_eq. eauto.
  - rewrite lookup_insert_ne by assumption. assumption.
Qed.

Lemma fill_payments_covers l : forall ps m,
  m ∈ l -> is_Some (fill_payments l ps !! m).
Proof.
  induction l as [|x l IH]; intros ps m Hm; simpl.
  - inversion Hm.
  - apply elem_of_cons in Hm as [->|Hm]; [|apply IH; assumption].
    apply fill_payments_keeps.
    destruct (ps !! x) eqn:Hx; [eauto|].
    rewrite lookup_insert_eq. eauto.
Qed.

Lemma fill_payments_old l : forall ps m p,
  ps !! m = Some p -> fill_payments l ps !! m = Some p.
Proof.
  induction l as [|x l IH]; intros ps m p Hm; simpl; [assumption|].
  apply IH. destruct (ps !! x) eqn:Hx; [assumption|].
  rewrite lookup_insert_ne; [assumption|]. intros ->. congruence.
Qed.

(** On a group that [create_group] made, [add_user_to_group] appends the
    user if new, stores the rounded share for the new member count, and
    leaves every member with a payment record: old records are kept, the
    missing ones are created. *)
Lemma add_user_to_group_complete st (uname group_name : string) (u : User)
    g b ps :
  fake_users_db st !! uname = Some u ->
  fake_groups_db st !! group_name = Some g ->
  budget g = Some b ->
  payments g = Some ps ->
  let ms := if bool_decide (uname ∈ members g) then members g
            else (members g ++ [uname])%list in
  let s := py_round2 (b / float_of_nat (length ms)) in
  exists g',
    fst (add_user_to_group uname group_name st)
    = Returns ("User '" ++ uname ++ "' added", s) /\
    fake_groups_db (snd (add_user_to_group uname group_name st)) !! group_name
    = Some g' /\
    members g' = ms /\
    split_amount g' = Some s /\
    payments g' = Some (fill_payments ms ps) /\
    every_member_has_payment g' = true.
Proof.
  intros Hu Hg Hb Hps ms s.
  assert (Hlen : exists n, length ms = S n).
  { subst ms. destruct (bool_decide (uname ∈ members g)) eqn:Hin.
    - apply bool_decide_eq_true_1 in Hin. destruct (members g); [inversion Hin|].
      simpl; eauto.
    - rewrite length_app; simpl. exists (length (members g)). lia. }
  destruct Hlen as [n Hn].
  exists {| admin := admin g; budget := Some b; members := ms;
            split_amount := Some s; payments := Some (fill_payments ms ps) |}.
  assert (Hall : forallb (fun m => bool_decide (is_Some (fill_payments ms ps !! m))) ms
                 = true).
  { apply forallb_forall. intros m Hm. apply bool_decide_eq_true_2.
    apply fill_payments_covers, list_elem_of_In, Hm. }
  unfold add_user_to_group, recalculate_split, user_groups_append.
  run_handler. rewrite Hu, Hg. revert Hn Hall. subst s ms.
  destruct (bool_decide (uname ∈ members g)) eqn:Hin; intros Hn Hall;
    run_handler.
  - rewrite Hg. run_handler. rewrite Hb. run_handler.
    unfold py_truediv. rewrite Hn. run_handler. rewrite Hg. run_store.
    rewrite (for_each_payments_setdefault group_name _ _
               (set_split_amount (py_round2 (b / float_of_nat (S n))) g) ps);
      [|simpl; apply lookup_insert_eq|simpl; assumption].
    run_store.
    repeat split; try reflexivity.
    + f_equal. destruct g; simpl in *; subst; reflexivity.
    + exact Hall.
  - rewrite Hg. run_store. rewrite Hu. run_store. rewrite Hb. run_handler.
    unfold py_truediv. rewrite Hn. run_store.
    rewrite (for_each_payments_setdefault group_name _ _
               (set_split_amount (py_round2 (b / float_of_nat (S n)))
                  (set_members (members g ++ [uname]) g)) ps);
      [|simpl; apply lookup_insert_eq|simpl; assumption].
    run_store.
    repeat split; try reflexivity.
    + f_equal. destruct g; simpl in *; subst; reflexivity.
    + exact Hall.
Qed.

(** The scenario of the ledger: carol joins "trip" (budget 300, two
    members); the share becomes 100 and carol gets the default record. *)
Example add_user_to_group_trip :
  fst (add_user_to_group "carol" "trip" carol_store)
  = Returns ("User 'carol' added", 100%float) /\
  payment_in (snd (add_user_to_group "carol" "trip" carol_store)) "trip" "carol"
  = Some default_payment /\
  payment_in (snd (add_user_to_group "carol" "trip" carol_store)) "trip" "bob"
  = Some bob_paid.
Proof. repeat split; vm_compute; reflexivity. Qed.

(** ** Decisions of the admin *)

Lemma approve_payment_admin st group_name uname action payload g adm ps p split :
  fake_groups_db st !! group_name = Some g ->
  admin g = Some adm ->
  sub payload = Some adm ->
  payments g = Some ps ->
  ps !! uname = Some p ->
  split_amount g = Some split ->
  let s' := decide_status action (paid_amount p) split in
  let p' := {| paid_amount := paid_amount p; status_of := s' |} in
  approve_payment group_name uname action payload st
  = (Returns (uname ++ "'s payment " ++ status_str s', p'),
     {| fake_users_db := fake_users_db st;
        fake_groups_db :=
          <[group_name := set_payments (<[uname := p']> ps) g]>
            (fake_groups_db st) |}).
Proof.
  intros Hg Hadm Hsub Hps Hp Hs s' p'.
  unfold approve_payment. run_handler.
  rewrite Hg. run_handler. rewrite Hsub, Hadm. run_handler.
  rewrite String.eqb_refl. run_handler.
  rewrite Hps. run_handler. rewrite Hp. run_handler.
  rewrite Hs. run_handler. rewrite Hg. reflexivity.
Qed.

Lemma decide_status_approve paid split :
  decide_status "approve" paid split
  = if py_eq paid split then approved else pending.
Proof. unfold decide_status. simpl. destruct (py_eq paid split); reflexivity. Qed.

Lemma decide_status_deny paid split : decide_status "deny" paid split = denied.
Proof. reflexivity. Qed.

Lemma decide_status_other action paid split :
  action <> "approve" -> action <> "deny" ->
  decide_status action paid split = pending.
Proof.
  intros Ha Hd. unfold decide_status.
  apply String.eqb_neq in Ha, Hd. rewrite Ha, Hd. reflexivity.
Qed.

(** C5, as the code behaves: for the admin and a member with a payment
    record, [approve_payment] keeps [paid_amount] and writes a status
    that depends on the action alone and on [paid_amount == split_amount]:
    ["approve"] writes [approved] if and only if the two are equal and
    writes [pending] when they differ; ["deny"] writes [denied] whatever
    the status was; every other action writes [pending]. *)
Theorem approve_payment_decision
    st group_name uname action payload g adm ps p split :
  fake_groups_db st !! group_name = Some g ->
  admin g = Some adm ->
  sub payload = Some adm ->
  payments g = Some ps ->
  ps !! uname = Some p ->
  split_amount g = Some split ->
  exists s',
    payment_in (snd (approve_payment group_name uname action payload st))
      group_name uname
    = Some {| paid_amount := paid_amount p; status_of := s' |} /\
    (action = "approve" ->
       (s' = approved <-> py_eq (paid_amount p) split = true) /\
       (py_eq (paid_amount p) split = false -> s' = pending)) /\
    (action = "deny" -> s' = denied) /\
    (action <> "approve" -> action <> "deny" -> s' = pending).
Proof.
  intros Hg Hadm Hsub Hps Hp Hs.
  exists (decide_status action (paid_amount p) split).
  rewrite (approve_payment_admin st group_name uname action payload g adm ps p split)
    by assumption.
  split; [apply payment_in_put|].
  split; [|split].
  - intros ->. rewrite decide_status_approve.
    destruct (py_eq (paid_amount p) split); split; try split; congruence.
  - intros ->. apply decide_status_deny.
  - apply decide_status_other.
Qed.

Lemma approve_payment_decision_witness :
  exists s',
    payment_in (snd (approve_payment "trip" "alice" "approve" alice trip_store))
      "trip" "alice"
    = Some {| paid_amount := 0%float; status_of := s' |} /\
    ("approve" = "approve" ->
       (s' = approved <-> py_eq 0 150 = true) /\
       (py_eq 0 150 = false -> s' = pending)) /\
    ("approve" = "deny" -> s' = denied) /\
    ("approve" <> "approve" -> "approve" <> "deny" -> s' = pending).
Proof.
  apply (approve_payment_decision trip_store "trip" "alice" "approve" alice
           trip "alice" trip_payments default_payment 150).
  - reflexivity.
  - reflexivity.
  - reflexivity.
  - reflexivity.
  - reflexivity.
  - reflexivity.
Defined.

(** The statement of C5 fails on the code where it says that a short
    payment keeps its status: alice has paid 0 of 150 and is [unpaid];
    the admin's "approve" makes her [pending]. *)
Lemma short_approval_resets_status : ~ short_approval_keeps_status.
Proof.
  intros H.
  specialize (H trip_store "trip" "alice" alice trip "alice" trip_payments
                default_payment 150%float).
  vm_compute in H.
  specialize (H eq_refl eq_refl eq_refl eq_refl eq_refl eq_refl eq_refl).
  discriminate.
Qed.

(** C4, as the code behaves: [approved] is not terminal.  From an
    approved payment, a submission by the member that does not exceed the
    share makes it [pending_approval] with the new amount; the admin's
    "deny" makes it [denied], any action other than "approve" and "deny"
    makes it [pending], and "approve" keeps it [approved] exactly when the
    paid amount equals the current share and makes it [pending]
    otherwise. *)
Theorem approved_is_not_terminal st group_name uname g adm ps p split :
  fake_groups_db st !! group_name = Some g ->
  admin g = Some adm ->
  payments g = Some ps ->
  ps !! uname = Some p ->
  split_amount g = Some split ->
  status_of p = approved ->
  (forall amount payload,
      sub payload = Some uname ->
      uname ∈ members g ->
      py_gt amount split = false ->
      payment_in (snd (pay_share group_name amount payload st)) group_name uname
      = Some {| paid_amount := amount; status_of := pending_approval |}) /\
  (forall payload,
      sub payload = Some adm ->
      status_in (snd (approve_payment group_name uname "deny" payload st))
        group_name uname
      = Some denied) /\
  (forall action payload,
      sub payload = Some adm ->
      action <> "approve" -> action <> "deny" ->
      status_in (snd (approve_payment group_name uname action payload st))
        group_name uname
      = Some pending) /\
  (forall payload,
      sub payload = Some adm ->
      status_in (snd (approve_payment group_name uname "approve" payload st))
        group_name uname
      = Some (if py_eq (paid_amount p) split then approved else pending)).
Proof.
  intros Hg Hadm Hps Hp Hs _.
  split; [|split; [|split]].
  - intros amount payload Hsub Hm Hgt.
    rewrite (pay_share_member st group_name amount payload uname g split ps p)
      by assumption.
    rewrite Hgt. apply payment_in_put.
  - intros payload Hsub. unfold status_in.
    rewrite (approve_payment_admin st group_name uname "deny" payload g adm ps p split)
      by assumption.
    simpl. rewrite payment_in_put. reflexivity.
  - intros action payload Hsub Ha Hd. unfold status_in.
    rewrite (approve_payment_admin st group_name uname action payload g adm ps p split)
      by assumption.
    simpl. rewrite payment_in_put. simpl.
    rewrite decide_status_other by assumption. reflexivity.
  - intros payload Hsub. unfold status_in.
    rewrite (approve_payment_admin st group_name uname "approve" payload g adm ps p split)
      by assumption.
    simpl. rewrite payment_in_put. simpl.
    rewrite decide_status_approve. reflexivity.
Qed.

Lemma approved_is_not_terminal_witness :
  payment_in (snd (pay_share "trip" 20 bob trip_store)) "trip" "bob"
  = Some {| paid_amount := 20%float; status_of := pending_approval |} /\
  status_in (snd (approve_payment "trip" "bob" "deny" alice trip_store))
    "trip" "bob"
  = Some denied /\
  status_in (snd (approve_payment "trip" "bob" "hold" alice trip_store))
    "trip" "bob"
  = Some pending /\
  status_in (snd (approve_payment "trip" "bob" "approve" alice trip_store))
    "trip" "bob"
  = Some approved.
Proof.
  pose proof (approved_is_not_terminal trip_store "trip" "bob" trip "alice"
                trip_payments bob_paid 150
                eq_refl eq_refl eq_refl eq_refl eq_refl eq_refl)
    as (Hpay & Hdeny & Hother & Happrove).
  split; [|split; [|split]].
  - apply (Hpay 20%float bob).
    + reflexivity.
    + apply (bool_decide_unpack _). vm_compute. exact I.
    + vm_compute. reflexivity.
  - apply (Hdeny alice). reflexivity.
  - apply (Hother "hold" alice).
    + reflexivity.
    + discriminate.
    + discriminate.
  - apply (Happrove alice). reflexivity.
Defined.

(** The statement of C4 fails on the code: bob's approved payment is
    [denied] after the admin's "deny". *)
Lemma approved_can_be_denied : ~ approved_is_terminal.
Proof.
  intros H.
  destruct (H trip_store "trip" "bob" trip trip_payments bob_paid
              eq_refl eq_refl eq_refl eq_refl) as [_ Hdecide].
  specialize (Hdecide "deny" alice eq_refl).
  vm_compute in Hdecide. discriminate.
Qed.

(** ** Scenarios *)

(** Budget 300 with the admin included gives a share of 300; a second
    member brings it to 150 for both; bob's 200 is turned away and his
    record stays at 0/[unpaid]; his 150 is [pending_approval], and
    [approved] once alice approves; bob himself may not approve. *)
Example scenario_trip hash_password :
  let st1 :=
    serve_all hash_password
      [Register "alice" "a" "admin" ""; Register "bob" "b" "user" "";
       CreateGroup "trip" 300 true alice]
      empty_store in
  let st2 := serve hash_password (AddMember "bob" "trip") st1 in
  let st3 := serve hash_password (SubmitPayment "trip" 150 bob) st2 in
  let st4 := serve hash_password (DecidePayment "trip" "bob" "approve" alice) st3 in
  option_map split_amount (fake_groups_db st1 !! "trip") = Some (Some 300%float) /\
  fst (add_user_to_group "bob" "trip" st1)
  = Returns ("User 'bob' added", 150%float) /\
  pay_share "trip" 200 bob st2
  = (HTTPException 400 "Exceeds threshold amount", st2) /\
  payment_in st2 "trip" "bob" = Some default_payment /\
  status_in st3 "trip" "bob" = Some pending_approval /\
  status_in st4 "trip" "bob" = Some approved /\
  fst (approve_payment "trip" "bob" "approve" bob st3)
  = HTTPException 403 "Only admin can approve payments".
Proof. repeat split; vm_compute; reflexivity. Qed.

(** A zero amount is a submission like any other. *)
Example pay_share_zero :
  payment_in (snd (pay_share "trip" 0 alice trip_store)) "trip" "alice"
  = Some {| paid_amount := 0%float; status_of := pending_approval |}.
Proof. vm_compute. reflexivity. Qed.

(** A group that only [register] has made carries no budget: adding a
    user to it raises [KeyError] after the member and the user's groups
    have been written. *)
Example add_user_to_lazy_group hash_password :
  let st :=
    serve_all hash_password
      [Register "bob" "b" "user" "ghost"; Register "carol" "c" "user" ""]
      empty_store in
  fake_groups_db st !! "ghost" = Some (set_members ["bob"] members_only) /\
  fst (add_user_to_group "carol" "ghost" st) = KeyError "budget" /\
  option_map members
    (fake_groups_db (snd (add_user_to_group "carol" "ghost" st)) !! "ghost")
  = Some ["bob"; "carol"] /\
  option_map groups
    (fake_users_db (snd (add_user_to_group "carol" "ghost" st)) !! "carol")
  = Some ["ghost"].
Proof. repeat split; vm_compute; reflexivity. Qed.

(** [" a , b,, c "] names the groups a, b and c. *)
Example parse_groups_strips :
  parse_groups " a , b,, c " = ["a"; "b"; "c"] /\ parse_groups "" = [].
Proof. split; reflexivity. Qed.

(** * Further properties of the routes *)

(** ** Registration *)

Lemma keeps_users_setdefault_append g uname :
  keeps_users (setdefault_append g uname).
Proof. unfold setdefault_append. frame. Qed.

Lemma for_each_setdefault_append uname gl :
  forall st,
    for_each gl (fun g => setdefault_append g uname) st
    = (Returns tt,
       {| fake_users_db := fake_users_db st;
          fake_groups_db := join_groups uname gl (fake_groups_db st) |}).
Proof.
  induction gl as [|g gl IH]; intros st; simpl.
  - destruct st; reflexivity.
  - unfold setdefault_append at 1. run_handler. rewrite IH. reflexivity.
Qed.

(** What [register] does on a user name that is free. *)
Lemma register_fresh hash_password uname pw role groups_field st :
  fake_users_db st !! uname = None ->
  let gl := parse_groups groups_field in
  register hash_password uname pw role groups_field st
  = (Returns {| reg_msg := "User registered successfully";
                reg_username := uname; reg_roles := [role]; reg_groups := gl |},
     {| fake_users_db :=
          <[uname := {| username := uname; password := hash_password pw;
                        roles := [role]; groups := gl |}]> (fake_users_db st);
        fake_groups_db := join_groups uname gl (fake_groups_db st) |}).
Proof.
  intros Hfree gl. unfold register. run_handler. rewrite Hfree. run_handler.
  rewrite for_each_setdefault_append. reflexivity.
Qed.

Lemma join_groups_other uname gl : forall gs g,
  g ∉ gl -> join_groups uname gl gs !! g = gs !! g.
Proof.
  induction gl as [|x gl IH]; intros gs g Hg; simpl; [reflexivity|].
  apply not_elem_of_cons in Hg as [Hne Hg].
  rewrite IH by assumption. unfold join_group.
  apply lookup_insert_ne. congruence.
Qed.

(** A group met by the loop keeps every key but ["members"], which only
    gets longer. *)
Lemma join_groups_keeps uname gl : forall gs g grp,
  gs !! g = Some grp ->
  exists more,
    join_groups uname gl gs !! g
    = Some (set_members (members grp ++ more) grp).
Proof.
  induction gl as [|x gl IH]; intros gs g grp Hg; simpl.
  - exists []. rewrite app_nil_r. rewrite Hg. destruct grp; reflexivity.
  - destruct (decide (x = g)) as [->|Hne].
    + destruct (IH (join_group uname gs g) g
                  (set_members (members grp ++ [uname]) grp)) as [more Hmore].
      { unfold join_group. rewrite Hg. simpl. apply lookup_insert_eq. }
      exists (uname :: more). rewrite Hmore. simpl.
      rewrite <- app_assoc. reflexivity.
    + apply IH. unfold join_group. rewrite lookup_insert_ne by assumption.
      exact Hg.
Qed.

Lemma join_groups_member uname gl : forall gs g,
  g ∈ gl ->
  exists grp, join_groups uname gl gs !! g = Some grp /\ uname ∈ members grp.
Proof.
  induction gl as [|x gl IH]; intros gs g Hg; simpl.
  - inversion Hg.
  - destruct (decide (g ∈ gl)) as [Hin|Hnot]; [apply IH; assumption|].
    apply elem_of_cons in Hg as [->|Hg]; [|contradiction].
    rewrite join_groups_other by assumption.
    unfold join_group. rewrite lookup_insert_eq.
    eexists; split; [reflexivity|]. simpl. set_solver.
Qed.

(** X1: a second [register] under a user name that is taken fails with
    400 "User already exists" and changes nothing: the record of the
    first registration, its password hash included, stays. *)
Theorem register_twice_keeps_first
    hash_password uname pw role groups_field pw2 role2 groups_field2 st :
  fake_users_db st !! uname = None ->
  let st1 := snd (register hash_password uname pw role groups_field st) in
  register hash_password uname pw2 role2 groups_field2 st1
  = (HTTPException 400 "User already exists", st1) /\
  fake_users_db st1 !! uname
  = Some {| username := uname; password := hash_password pw;
            roles := [role]; groups := parse_groups groups_field |}.
Proof.
  intros Hfree st1. unfold st1.
  rewrite (register_fresh hash_password uname pw role groups_field st Hfree).
  simpl. split; [|apply lookup_insert_eq].
  unfold register. run_handler. rewrite lookup_insert_eq. reflexivity.
Qed.

Lemma register_twice_keeps_first_witness :
  let st1 := snd (register toy_hash "dave" "pw" "user" "trip" empty_store) in
  register toy_hash "dave" "other" "admin" "" st1
  = (HTTPException 400 "User already exists", st1) /\
  fake_users_db st1 !! "dave"
  = Some {| username := "dave"; password := "$toy$pw";
            roles := ["user"]; groups := ["trip"] |}.
Proof.
  apply (register_twice_keeps_first toy_hash "dave" "pw" "user" "trip"
           "other" "admin" "" empty_store).
  reflexivity.
Defined.

(** X2: on a free user name [register] stores the record and returns it,
    and its loop touches ["members"] only.  Every listed group has the user
    among its members afterwards; a group that is not listed is as before;
    a group that existed keeps its admin, budget, share and payments, with
    a members list that has only got longer: no payment record is made and
    the share is not recomputed. *)
Theorem register_joins_members_only
    hash_password uname pw role groups_field st :
  fake_users_db st !! uname = None ->
  let gl := parse_groups groups_field in
  let st1 := snd (register hash_password uname pw role groups_field st) in
  fst (register hash_password uname pw role groups_field st)
  = Returns {| reg_msg := "User registered successfully";
               reg_username := uname; reg_roles := [role]; reg_groups := gl |} /\
  (forall g, g ∈ gl ->
     exists grp, fake_groups_db st1 !! g = Some grp /\ uname ∈ members grp) /\
  (forall g, g ∉ gl -> fake_groups_db st1 !! g = fake_groups_db st !! g) /\
  (forall g grp, fake_groups_db st !! g = Some grp ->
     exists more,
       fake_groups_db st1 !! g = Some (set_members (members grp ++ more) grp)).
Proof.
  intros Hfree gl st1. unfold st1.
  rewrite (register_fresh hash_password uname pw role groups_field st Hfree).
  simpl. split; [reflexivity|]. split; [|split].
  - intros g Hg. apply join_groups_member, Hg.
  - intros g Hg. apply join_groups_other, Hg.
  - intros g grp Hg. apply join_groups_keeps, Hg.
Qed.

Lemma register_joins_members_only_witness :
  let st1 := snd (register toy_hash "dave" "pw" "user" "trip, club" trip_store) in
  fst (register toy_hash "dave" "pw" "user" "trip, club" trip_store)
  = Returns {| reg_msg := "User registered successfully";
               reg_username := "dave"; reg_roles := ["user"];
               reg_groups := ["trip"; "club"] |} /\
  (forall g, g ∈ ["trip"; "club"] ->
     exists grp, fake_groups_db st1 !! g = Some grp /\ "dave" ∈ members grp) /\
  (forall g, g ∉ ["trip"; "club"] ->
     fake_groups_db st1 !! g = fake_groups_db trip_store !! g) /\
  (forall g grp, fake_groups_db trip_store !! g = Some grp ->
     exists more,
       fake_groups_db st1 !! g = Some (set_members (members grp ++ more) grp)).
Proof.
  apply (register_joins_members_only toy_hash "dave" "pw" "user" "trip, club"
           trip_store).
  reflexivity.
Defined.

(** *** The groups field *)

Lemma split_comma_no_comma s : forall x, x ∈ split_comma s -> has_comma x = false.
Proof.
  induction s as [|c s IH]; simpl; intros x Hx.
  - apply list_elem_of_singleton in Hx as ->. reflexivity.
  - destruct (Ascii.eqb c ",") eqn:Hc.
    + apply elem_of_cons in Hx as [->|Hx]; [reflexivity|apply IH, Hx].
    + destruct (split_comma s) as [|h t] eqn:Hs.
      * apply list_elem_of_singleton in Hx as ->. simpl. rewrite Hc. reflexivity.
      * apply elem_of_cons in Hx as [->|Hx].
        -- simpl. rewrite Hc. apply IH. left.
        -- apply IH. right. exact Hx.
Qed.

Section StripFront.

Variable width : list ascii -> nat.
Hypothesis width_nil : width [] = 0%nat.

Lemma strip_front_clean n : forall l,
  (length l <= n)%nat -> width (strip_front width n l) = 0%nat.
Proof.
  induction n as [|n IH]; intros l Hl; simpl.
  - destruct l; [exact width_nil|simpl in Hl; lia].
  - destruct (width l) as [|k] eqn:Hw; [exact Hw|].
    apply IH. rewrite length_skipn. lia.
Qed.

Lemma strip_front_suffix n : forall l,
  exists d, l = (d ++ strip_front width n l)%list.
Proof.
  induction n as [|n IH]; intros l; simpl; [exists []; reflexivity|].
  destruct (width l) as [|k]; [exists []; reflexivity|].
  destruct (IH (skipn (S k) l)) as [d Hd].
  exists (firstn (S k) l ++ d)%list.
  rewrite <- app_assoc, <- Hd. symmetry. apply firstn_skipn.
Qed.

Lemma strip_front_id n l : width l = 0%nat -> strip_front width n l = l.
Proof. destruct n; simpl; [reflexivity|]. intros ->. reflexivity. Qed.

End StripFront.

(** A list that starts with a white space character still does when
    bytes are appended. *)
Lemma space_width_prefix a b :
  space_width (a ++ b) = 0%nat -> space_width a = 0%nat.
Proof.
  destruct a as [|c1 [|c2 [|c3 a]]]; cbn [space_width app]; intros H;
    try reflexivity;
    destruct (is_ascii_space (nat_of_ascii c1)); try discriminate;
    try reflexivity;
    destruct (is_space2 (nat_of_ascii c1) (nat_of_ascii c2)); try discriminate;
    try reflexivity; exact H.
Qed.

Lemma lstrip_bytes_clean l : space_width (lstrip_bytes l) = 0%nat.
Proof. apply strip_front_clean; [reflexivity|lia]. Qed.

Lemma lstrip_bytes_suffix l : exists d, l = (d ++ lstrip_bytes l)%list.
Proof. apply strip_front_suffix. Qed.

Lemma rstrip_bytes_prefix l : exists d, l = (rstrip_bytes l ++ d)%list.
Proof.
  destruct (strip_front_suffix space_width_rev (length l) (rev l)) as [d Hd].
  exists (rev d). unfold rstrip_bytes. rewrite <- rev_app_distr, <- Hd.
  symmetry. apply rev_involutive.
Qed.

Lemma rstrip_bytes_idem l : rstrip_bytes (rstrip_bytes l) = rstrip_bytes l.
Proof.
  unfold rstrip_bytes at 1. unfold rstrip_bytes at 2.
  rewrite rev_involutive.
  rewrite strip_front_id; [reflexivity|].
  apply strip_front_clean; [reflexivity|]. rewrite length_rev. lia.
Qed.

Lemma strip_bytes_idem l :
  rstrip_bytes (lstrip_bytes (rstrip_bytes (lstrip_bytes l)))
  = rstrip_bytes (lstrip_bytes l).
Proof.
  destruct (rstrip_bytes_prefix (lstrip_bytes l)) as [d Hd].
  assert (Hclean : space_width (rstrip_bytes (lstrip_bytes l)) = 0%nat).
  { apply (space_width_prefix _ d). rewrite <- Hd. apply lstrip_bytes_clean. }
  unfold lstrip_bytes at 1. rewrite strip_front_id by exact Hclean.
  apply rstrip_bytes_idem.
Qed.

Lemma strip_idem s : strip (strip s) = strip s.
Proof.
  unfold strip. rewrite list_ascii_of_string_of_list_ascii.
  rewrite strip_bytes_idem. reflexivity.
Qed.

Lemma has_comma_bytes l :
  has_comma (string_of_list_ascii l)
  = existsb (fun c => Ascii.eqb c ",") l.
Proof. induction l as [|c l IH]; simpl; [reflexivity|]. rewrite IH. reflexivity. Qed.

Lemma strip_no_comma s : has_comma s = false -> has_comma (strip s) = false.
Proof.
  intros H. rewrite <- (string_of_list_ascii_of_string s) in H.
  rewrite has_comma_bytes in H. unfold strip. rewrite has_comma_bytes.
  destruct (lstrip_bytes_suffix (list_ascii_of_string s)) as [d1 Hd1].
  destruct (rstrip_bytes_prefix (lstrip_bytes (list_ascii_of_string s)))
    as [d2 Hd2].
  rewrite Hd1, Hd2, !existsb_app in H.
  apply orb_false_iff in H as [_ H]. apply orb_false_iff in H as [H _].
  exact H.
Qed.

(** X3: every name that [register] reads from the groups field is not
    empty, holds no comma, and has no white space left at either end:
    stripping it again gives the same name. *)
Theorem parse_groups_clean groups_field g :
  g ∈ parse_groups groups_field ->
  g <> "" /\ has_comma g = false /\ strip g = g.
Proof.
  unfold parse_groups. intros Hg.
  apply list_elem_of_In, filter_In in Hg as [Hg Hne].
  apply in_map_iff in Hg as (x & <- & Hx).
  split; [|split].
  - intros Heq. rewrite Heq in Hne. discriminate.
  - apply strip_no_comma.
    apply (split_comma_no_comma groups_field), list_elem_of_In, Hx.
  - apply strip_idem.
Qed.

Lemma parse_groups_clean_witness :
  "b c" <> "" /\ has_comma "b c" = false /\ strip "b c" = "b c".
Proof.
  apply (parse_groups_clean (" a ,," ++ nbsp ++ "b c" ++ em_space ++ " ,")).
  apply (bool_decide_unpack _). vm_compute. exact I.
Defined.

(** White space beyond ASCII is stripped like a blank: a no-break space
    after "trip" does not make another group of it. *)
Example parse_groups_strips_unicode :
  parse_groups ("trip" ++ nbsp ++ ",club") = ["trip"; "club"] /\
  parse_groups (em_space ++ nbsp ++ "," ++ nbsp) = [].
Proof. split; vm_compute; reflexivity. Qed.

(** ** Logging in *)

Lemma login_known verify_password sign settings now uname pw st user :
  fake_users_db st !! uname = Some user ->
  login verify_password sign settings now uname pw st
  = if verify_password pw (password user)
    then
      let payload := identity_claims (username user) (roles user) (groups user) in
      (Returns {| access_token :=
                    create_access_token sign settings now payload None;
                  refresh_token_of :=
                    create_refresh_token sign settings now payload;
                  bearer := "bearer" |}, st)
    else (HTTPException 401 "Invalid credentials", st).
Proof.
  intros Hu. unfold login, authenticate_user. run_handler. rewrite Hu.
  destruct (verify_password pw (password user)); reflexivity.
Qed.

(** X4: [login] answers an unknown user name and a wrong password with
    the same 401 "Invalid credentials", and leaves the store as it is in
    both cases. *)
Theorem login_failure_uniform verify_password sign settings now uname pw st :
  (fake_users_db st !! uname = None \/
   exists user, fake_users_db st !! uname = Some user /\
                verify_password pw (password user) = false) ->
  login verify_password sign settings now uname pw st
  = (HTTPException 401 "Invalid credentials", st).
Proof.
  intros [Hnone|(user & Hu & Hpw)].
  - unfold login, authenticate_user. run_handler. rewrite Hnone. reflexivity.
  - rewrite (login_known _ _ _ _ _ _ _ user Hu). rewrite Hpw. reflexivity.
Qed.

Lemma login_failure_uniform_witness :
  login toy_verify toy_sign default_settings 0 "erin" "pw" dave_store
  = (HTTPException 401 "Invalid credentials", dave_store) /\
  login toy_verify toy_sign default_settings 0 "dave" "guess" dave_store
  = (HTTPException 401 "Invalid credentials", dave_store).
Proof.
  split.
  - apply (login_failure_uniform toy_verify toy_sign default_settings 0 "erin"
             "pw" dave_store).
    left. reflexivity.
  - apply (login_failure_uniform toy_verify toy_sign default_settings 0 "dave"
             "guess" dave_store).
    right. exists dave_user. split; reflexivity.
Defined.





(** ** Roles *)

Lemma require_role_iff required_roles payload :
  require_role required_roles payload = Returns payload <->
  exists r, r ∈ required_roles /\ r ∈ default [] (claim_roles payload).
Proof.
  unfold require_role.
  destruct (existsb _ required_roles) eqn:He; simpl.
  - split; [intros _|reflexivity].
    apply existsb_exists in He as (r & Hr & Hin).
    exists r. split; [apply list_elem_of_In, Hr|].
    apply bool_decide_eq_true_1 in Hin. exact Hin.
  - split; [discriminate|]. intros (r & Hr & Hin).
    assert (existsb (fun r => bool_decide (r ∈ default [] (claim_roles payload)))
              required_roles = true) as Ht.
    { apply existsb_exists. exists r. split; [apply list_elem_of_In, Hr|].
      apply bool_decide_eq_true_2, Hin. }
    congruence.
Qed.





(** ** Refreshing *)






(** ** Creating groups and adding members *)

Lemma create_group_existing st group_name b add_creator payload g :
  fake_groups_db st !! group_name = Some g ->
  create_group group_name b add_creator payload st
  = (HTTPException 400 "Group already exists", st).
Proof. intros Hg. unfold create_group. run_handler. rewrite Hg. reflexivity. Qed.

(** X11: a group name that a registration has listed is taken.  After
    [register] on a free user name, [create_group] under any name from the
    groups field fails with 400 "Group already exists" and changes
    nothing, so a group that [register] was first to name never gets an
    admin, a budget or payments. *)
Theorem registered_group_name_is_taken
    hash_password uname pw role groups_field g b add_creator payload st :
  fake_users_db st !! uname = None ->
  g ∈ parse_groups groups_field ->
  let st1 := snd (register hash_password uname pw role groups_field st) in
  create_group g b add_creator payload st1
  = (HTTPException 400 "Group already exists", st1).
Proof.
  intros Hfree Hg st1.
  destruct (join_groups_member uname (parse_groups groups_field)
              (fake_groups_db st) g Hg) as (grp & Hgrp & _).
  apply (create_group_existing st1 g b add_creator payload grp).
  unfold st1.
  rewrite (register_fresh hash_password uname pw role groups_field st Hfree).
  exact Hgrp.
Qed.

Lemma registered_group_name_is_taken_witness :
  let st1 := snd (register toy_hash "erin" "pw" "user" "club" empty_store) in
  create_group "club" 90 true alice st1
  = (HTTPException 400 "Group already exists", st1).
Proof.
  apply (registered_group_name_is_taken toy_hash "erin" "pw" "user" "club"
           "club" 90 true alice empty_store).
  - reflexivity.
  - apply (bool_decide_unpack _). vm_compute. exact I.
Defined.

(** X12: [add_user_to_group] looks for the user first and the group
    second; when either is unknown it fails with 404 ("User not found"
    when the user is unknown, whatever the group) and changes nothing. *)
Theorem add_user_to_group_not_found st (uname group_name : string) :
  fake_users_db st !! uname = None \/ fake_groups_db st !! group_name = None ->
  exists detail,
    add_user_to_group uname group_name st = (HTTPException 404 detail, st) /\
    (fake_users_db st !! uname = None -> detail = "User not found") /\
    (fake_users_db st !! uname <> None -> detail = "Group not found").
Proof.
  intros H. unfold add_user_to_group. run_handler.
  destruct (fake_users_db st !! uname) as [u|] eqn:Hu.
  - destruct H as [H|H]; [discriminate|]. rewrite H.
    eexists. split; [reflexivity|]. split; [discriminate|reflexivity].
  - eexists. split; [reflexivity|]. split; [reflexivity|congruence].
Qed.

Lemma add_user_to_group_not_found_witness :
  exists detail,
    add_user_to_group "carol" "club" carol_store
    = (HTTPException 404 detail, carol_store) /\
    (fake_users_db carol_store !! "carol" = None -> detail = "User not found") /\
    (fake_users_db carol_store !! "carol" <> None -> detail = "Group not found").
Proof.
  apply (add_user_to_group_not_found carol_store "carol" "club").
  right. reflexivity.
Defined.

Lemma fill_payments_noop l : forall ps,
  (forall m, m ∈ l -> is_Some (ps !! m)) -> fill_payments l ps = ps.
Proof.
  induction l as [|x l IH]; intros ps H; simpl; [reflexivity|].
  destruct (H x) as [p Hp]; [left|]. rewrite Hp.
  apply IH. intros m Hm. apply H. right. exact Hm.
Qed.

(** What [add_user_to_group] does on a group that carries a budget and
    payments. *)
Lemma add_user_to_group_full st (uname group_name : string) (u : User) g b ps :
  fake_users_db st !! uname = Some u ->
  fake_groups_db st !! group_name = Some g ->
  budget g = Some b ->
  payments g = Some ps ->
  let joined := bool_decide (uname ∈ members g) in
  let ms := if joined then members g else (members g ++ [uname])%list in
  let s := py_round2 (b / float_of_nat (length ms)) in
  add_user_to_group uname group_name st
  = (Returns ("User '" ++ uname ++ "' added", s),
     {| fake_users_db :=
          if joined then fake_users_db st
          else <[uname := set_groups (groups u ++ [group_name]) u]>
                 (fake_users_db st);
        fake_groups_db :=
          <[group_name :=
              {| admin := admin g; budget := Some b; members := ms;
                 split_amount := Some s;
                 payments := Some (fill_payments ms ps) |}]>
            (fake_groups_db st) |}).
Proof.
  intros Hu Hg Hb Hps joined ms s.
  assert (Hlen : exists n, length ms = S n).
  { subst ms joined. destruct (bool_decide (uname ∈ members g)) eqn:Hin.
    - apply bool_decide_eq_true_1 in Hin. destruct (members g); [inversion Hin|].
      simpl; eauto.
    - rewrite length_app; simpl. exists (length (members g)). lia. }
  destruct Hlen as [n Hn].
  unfold add_user_to_group, recalculate_split, user_groups_append.
  run_handler. rewrite Hu, Hg. revert Hn. subst s ms joined.
  destruct (bool_decide (uname ∈ members g)) eqn:Hin; intros Hn; run_handler.
  - rewrite Hg. run_handler. rewrite Hb. run_handler.
    unfold py_truediv. rewrite Hn. run_handler. rewrite Hg. run_store.
    rewrite (for_each_payments_setdefault group_name _ _
               (set_split_amount (py_round2 (b / float_of_nat (S n))) g) ps);
      [|simpl; apply lookup_insert_eq|simpl; assumption].
    run_store. do 4 f_equal. destruct g; simpl in *; subst; reflexivity.
  - rewrite Hg. run_store. rewrite Hu. run_store. rewrite Hb. run_handler.
    unfold py_truediv. rewrite Hn. run_store.
    rewrite (for_each_payments_setdefault group_name _ _
               (set_split_amount (py_round2 (b / float_of_nat (S n)))
                  (set_members (members g ++ [uname]) g)) ps);
      [|simpl; apply lookup_insert_eq|simpl; assumption].
    run_store. do 4 f_equal. destruct g; simpl in *; subst; reflexivity.
Qed.

(** X14: [add_user_to_group] is idempotent on a group that carries a
    budget and payments: a second call with the same user and group
    returns the same answer as the first and leaves the store as the first
    call left it (no second membership, no second entry in the user's
    groups, the same share, the same payment records). *)
Theorem add_user_to_group_idempotent
    st (uname group_name : string) (u : User) g b ps :
  fake_users_db st !! uname = Some u ->
  fake_groups_db st !! group_name = Some g ->
  budget g = Some b ->
  payments g = Some ps ->
  let st1 := snd (add_user_to_group uname group_name st) in
  add_user_to_group uname group_name st1
  = (fst (add_user_to_group uname group_name st), st1).
Proof.
  intros Hu Hg Hb Hps st1. unfold st1.
  rewrite (add_user_to_group_full st uname group_name u g b ps) by assumption.
  simpl.
  set (ms := if bool_decide (uname ∈ members g) then members g
             else (members g ++ [uname])%list).
  assert (Hin : uname ∈ ms).
  { subst ms. destruct (bool_decide (uname ∈ members g)) eqn:Hm.
    - apply bool_decide_eq_true_1 in Hm. exact Hm.
    - set_solver. }
  assert (Hu' : exists u',
             (if bool_decide (uname ∈ members g) then fake_users_db st
              else <[uname := set_groups (groups u ++ [group_name]) u]>
                     (fake_users_db st)) !! uname = Some u').
  { destruct (bool_decide (uname ∈ members g)); [eauto|].
    rewrite lookup_insert_eq. eauto. }
  destruct Hu' as [u' Hu'].
  erewrite (add_user_to_group_full _ uname group_name u' _ b
              (fill_payments ms ps));
    [|exact Hu'|simpl; apply lookup_insert_eq|reflexivity|reflexivity].
  simpl. rewrite bool_decide_eq_true_2 by exact Hin.
  rewrite insert_insert_eq.
  rewrite (fill_payments_noop ms (fill_payments ms ps))
    by (intros m Hm; apply fill_payments_covers, Hm).
  reflexivity.
Qed.

Lemma add_user_to_group_idempotent_witness :
  let st1 := snd (add_user_to_group "carol" "trip" carol_store) in
  add_user_to_group "carol" "trip" st1
  = (fst (add_user_to_group "carol" "trip" carol_store), st1).
Proof.
  apply (add_user_to_group_idempotent carol_store "carol" "trip" carol_user
           trip 300 trip_payments).
  - reflexivity.
  - reflexivity.
  - reflexivity.
  - reflexivity.
Defined.

Lemma fill_payments_new l : forall ps m,
  m ∈ l -> ps !! m = None -> fill_payments l ps !! m = Some default_payment.
Proof.
  induction l as [|x l IH]; intros ps m Hm Hnone; simpl.
  - inversion Hm.
  - destruct (decide (x = m)) as [->|Hne].
    + rewrite Hnone. apply fill_payments_old, lookup_insert_eq.
    + apply elem_of_cons in Hm as [Hm|Hm]; [congruence|].
      apply IH; [exact Hm|].
      destruct (ps !! x); [exact Hnone|].
      rewrite lookup_insert_ne by assumption. exact Hnone.
Qed.

(** X13: a change of membership moves the share and nothing else in the
    payments.  On a group that carries a budget and payments,
    [add_user_to_group] stores [round(budget / n, 2)] for the new member
    count [n], gives the default record to the members that had none, and
    keeps every record that was there, amount and status: a payment
    approved against the old share stays approved. *)
Theorem add_user_to_group_keeps_payments
    st (uname group_name : string) (u : User) g b ps :
  fake_users_db st !! uname = Some u ->
  fake_groups_db st !! group_name = Some g ->
  budget g = Some b ->
  payments g = Some ps ->
  let ms := if bool_decide (uname ∈ members g) then members g
            else (members g ++ [uname])%list in
  let st1 := snd (add_user_to_group uname group_name st) in
  (exists g1, fake_groups_db st1 !! group_name = Some g1 /\
              members g1 = ms /\
              split_amount g1
              = Some (py_round2 (b / float_of_nat (length ms)))) /\
  (forall m p, ps !! m = Some p -> payment_in st1 group_name m = Some p) /\
  (forall m, m ∈ ms -> ps !! m = None ->
             payment_in st1 group_name m = Some default_payment).
Proof.
  intros Hu Hg Hb Hps ms st1. unfold st1.
  rewrite (add_user_to_group_full st uname group_name u g b ps) by assumption.
  unfold payment_in. simpl. rewrite lookup_insert_eq. simpl. fold ms.
  split; [eexists; repeat split; reflexivity|]. split.
  - intros m p Hm. apply fill_payments_old, Hm.
  - intros m Hm Hnone. apply fill_payments_new; assumption.
Qed.

Lemma add_user_to_group_keeps_payments_witness :
  let ms := ["alice"; "bob"; "carol"] in
  let st1 := snd (add_user_to_group "carol" "trip" carol_store) in
  (exists g1, fake_groups_db st1 !! "trip" = Some g1 /\
              members g1 = ms /\
              split_amount g1 = Some (py_round2 (300 / float_of_nat 3))) /\
  (forall m p, trip_payments !! m = Some p -> payment_in st1 "trip" m = Some p) /\
  (forall m, m ∈ ms -> trip_payments !! m = None ->
             payment_in st1 "trip" m = Some default_payment).
Proof.
  apply (add_user_to_group_keeps_payments carol_store "carol" "trip" carol_user
           trip 300 trip_payments).
  - reflexivity.
  - reflexivity.
  - reflexivity.
  - reflexivity.
Defined.

(** X15: a failed [add_user_to_group] is not undone.  On a group without
    a budget (one that only [register] has made) the call raises
    [KeyError] on ["budget"], and by then a new user has already been
    appended to the members and the group's name to the user's groups. *)
Theorem add_user_to_group_without_budget
    st (uname group_name : string) (u : User) g :
  fake_users_db st !! uname = Some u ->
  fake_groups_db st !! group_name = Some g ->
  budget g = None ->
  uname ∉ members g ->
  let st1 := snd (add_user_to_group uname group_name st) in
  fst (add_user_to_group uname group_name st) = KeyError "budget" /\
  fake_groups_db st1 !! group_name
  = Some (set_members (members g ++ [uname]) g) /\
  fake_users_db st1 !! uname = Some (set_groups (groups u ++ [group_name]) u).
Proof.
  intros Hu Hg Hb Hm st1. unfold st1.
  unfold add_user_to_group, recalculate_split, user_groups_append.
  run_handler. rewrite Hu, Hg.
  rewrite bool_decide_eq_false_2 by assumption. run_handler.
  rewrite Hg. run_store. rewrite Hu. run_store. rewrite Hb. run_store.
  repeat split; reflexivity.
Qed.

Lemma add_user_to_group_without_budget_witness :
  let st := snd (register toy_hash "erin" "pw" "user" "club" carol_store) in
  let st1 := snd (add_user_to_group "carol" "club" st) in
  fst (add_user_to_group "carol" "club" st) = KeyError "budget" /\
  fake_groups_db st1 !! "club"
  = Some (set_members (["erin"] ++ ["carol"]) (set_members ["erin"] members_only)) /\
  fake_users_db st1 !! "carol" = Some (set_groups ([] ++ ["club"]) carol_user).
Proof.
  apply (add_user_to_group_without_budget
           (snd (register toy_hash "erin" "pw" "user" "club" carol_store))
           "carol" "club" carol_user (set_members ["erin"] members_only)).
  - reflexivity.
  - reflexivity.
  - reflexivity.
  - apply (bool_decide_unpack _). vm_compute. exact I.
Defined.

(** X16: [group_status] is for members only and never writes.  For a
    group that exists, a caller listed in its members gets the group as
    stored (budget, members, share and every member's payment); any other
    caller, the group's admin included when they are not a member, gets
    403. *)
Theorem group_status_members_only st group_name payload g caller :
  fake_groups_db st !! group_name = Some g ->
  sub payload = Some caller ->
  group_status group_name payload st
  = if bool_decide (caller ∈ members g)
    then (Returns (group_name, g), st)
    else (HTTPException 403 "You are not part of this group", st).
Proof.
  intros Hg Hsub. unfold group_status. run_handler.
  rewrite Hg. run_handler. rewrite Hsub. run_handler.
  destruct (bool_decide (caller ∈ members g)); reflexivity.
Qed.

Lemma group_status_members_only_witness :
  group_status "trip" bob trip_store = (Returns ("trip", trip), trip_store) /\
  group_status "trip" (identity_claims "carol" ["user"] []) trip_store
  = (HTTPException 403 "You are not part of this group", trip_store).
Proof.
  split.
  - apply (group_status_members_only trip_store "trip" bob trip "bob");
      reflexivity.
  - apply (group_status_members_only trip_store "trip"
             (identity_claims "carol" ["user"] []) trip "carol");
      reflexivity.
Defined.

(** ** Submitting and deciding payments *)

(** X17: only members may submit.  A caller who is not in the members of
    the group, and any caller when the group does not exist, gets 403
    "Not part of this group" whatever the amount, and nothing changes. *)
Theorem pay_share_outsider st group_name amount payload caller :
  sub payload = Some caller ->
  (fake_groups_db st !! group_name = None \/
   exists g, fake_groups_db st !! group_name = Some g /\ caller ∉ members g) ->
  pay_share group_name amount payload st
  = (HTTPException 403 "Not part of this group", st).
Proof.
  intros Hsub H. unfold pay_share. run_handler. rewrite Hsub. run_handler.
  destruct H as [Hnone|(g & Hg & Hm)].
  - rewrite Hnone. reflexivity.
  - rewrite Hg. rewrite bool_decide_eq_false_2 by assumption. reflexivity.
Qed.

Lemma pay_share_outsider_witness :
  pay_share "trip" 10 (identity_claims "carol" ["user"] []) trip_store
  = (HTTPException 403 "Not part of this group", trip_store) /\
  pay_share "club" 10 alice trip_store
  = (HTTPException 403 "Not part of this group", trip_store).
Proof.
  split.
  - apply (pay_share_outsider trip_store "trip" 10
             (identity_claims "carol" ["user"] []) "carol").
    + reflexivity.
    + right. exists trip. split; [reflexivity|].
      apply (bool_decide_unpack _). vm_compute. exact I.
  - apply (pay_share_outsider trip_store "club" 10 alice "alice").
    + reflexivity.
    + left. reflexivity.
Defined.

Lemma pay_share_no_record st group_name amount payload uname g split ps :
  sub payload = Some uname ->
  fake_groups_db st !! group_name = Some g ->
  uname ∈ members g ->
  split_amount g = Some split ->
  payments g = Some ps ->
  ps !! uname = None ->
  pay_share group_name amount payload st = (KeyError uname, st).
Proof.
  intros Hsub Hg Hm Hs Hps Hp. unfold pay_share. run_handler.
  rewrite Hsub. run_handler. rewrite Hg.
  rewrite bool_decide_eq_true_2 by assumption. run_handler.
  rewrite Hs. run_handler. rewrite Hps. run_handler. rewrite Hp. reflexivity.
Qed.

(** X18: a user who joins a group by naming it at registration cannot
    pay.  When the group was made by [create_group] (it carries a share
    and payments) and holds no record under the new user's name, every
    [pay_share] of that user raises [KeyError] on the user's name,
    whatever the amount, and changes nothing. *)
Theorem registered_member_cannot_pay
    hash_password uname pw role groups_field group_name g split ps
    amount payload st :
  fake_users_db st !! uname = None ->
  group_name ∈ parse_groups groups_field ->
  fake_groups_db st !! group_name = Some g ->
  split_amount g = Some split ->
  payments g = Some ps ->
  ps !! uname = None ->
  sub payload = Some uname ->
  let st1 := snd (register hash_password uname pw role groups_field st) in
  pay_share group_name amount payload st1 = (KeyError uname, st1).
Proof.
  intros Hfree Hin Hg Hs Hps Hp Hsub st1.
  destruct (join_groups_member uname (parse_groups groups_field)
              (fake_groups_db st) group_name Hin) as (grp & Hgrp & Hmem).
  destruct (join_groups_keeps uname (parse_groups groups_field)
              (fake_groups_db st) group_name g Hg) as (more & Hmore).
  rewrite Hmore in Hgrp. injection Hgrp as <-.
  apply (pay_share_no_record st1 group_name amount payload uname
           (set_members (members g ++ more) g) split ps); try assumption.
  unfold st1.
  rewrite (register_fresh hash_password uname pw role groups_field st Hfree).
  exact Hmore.
Qed.

Lemma registered_member_cannot_pay_witness :
  let st1 := snd (register toy_hash "erin" "pw" "user" "trip" trip_store) in
  pay_share "trip" 100 (identity_claims "erin" ["user"] ["trip"]) st1
  = (KeyError "erin", st1).
Proof.
  apply (registered_member_cannot_pay toy_hash "erin" "pw" "user" "trip" "trip"
           trip 150 trip_payments 100 (identity_claims "erin" ["user"] ["trip"])
           trip_store).
  - reflexivity.
  - apply (bool_decide_unpack _). vm_compute. exact I.
  - reflexivity.
  - reflexivity.
  - reflexivity.
  - reflexivity.
  - reflexivity.
Defined.

(** Either [pay_share] leaves the store alone, or it has replaced the
    caller's record in the group. *)
Lemma pay_share_shape group_name amount payload st :
  snd (pay_share group_name amount payload st) = st \/
  exists uname g ps p p',
    sub payload = Some uname /\
    fake_groups_db st !! group_name = Some g /\
    payments g = Some ps /\
    ps !! uname = Some p /\
    snd (pay_share group_name amount payload st)
    = {| fake_users_db := fake_users_db st;
         fake_groups_db :=
           <[group_name := set_payments (<[uname := p']> ps) g]>
             (fake_groups_db st) |}.
Proof.
  destruct (sub payload) as [uname|] eqn:Hsub;
    [|left; unfold pay_share; run_handler; rewrite Hsub; reflexivity].
  destruct (fake_groups_db st !! group_name) as [g|] eqn:Hg;
    [|left; unfold pay_share; run_handler; rewrite Hsub; run_handler;
      rewrite Hg; reflexivity].
  destruct (bool_decide (uname ∈ members g)) eqn:Hm;
    [|left; unfold pay_share; run_handler; rewrite Hsub; run_handler;
      rewrite Hg, Hm; reflexivity].
  apply bool_decide_eq_true_1 in Hm.
  destruct (split_amount g) as [split|] eqn:Hs;
    [|left; unfold pay_share; run_handler; rewrite Hsub; run_handler;
      rewrite Hg; rewrite bool_decide_eq_true_2 by assumption; run_handler;
      rewrite Hs; reflexivity].
  destruct (payments g) as [ps|] eqn:Hps;
    [|left; unfold pay_share; run_handler; rewrite Hsub; run_handler;
      rewrite Hg; rewrite bool_decide_eq_true_2 by assumption; run_handler;
      rewrite Hs; run_handler; rewrite Hps; reflexivity].
  destruct (ps !! uname) as [p|] eqn:Hp.
  - rewrite (pay_share_member st group_name amount payload uname g split ps p)
      by assumption.
    destruct (py_gt amount split); [left; reflexivity|].
    right. exists uname, g, ps, p. eexists. repeat split; try eassumption.
  - left.
    rewrite (pay_share_no_record st group_name amount payload uname g split ps)
      by assumption.
    reflexivity.
Qed.

(** X19: [pay_share] writes at most one payment record.  Whatever the
    call and its outcome, the user records, every other group, every
    other member's record in the group, and the group's admin, budget,
    members and share are as before. *)
Theorem pay_share_touches_one_record group_name amount payload st :
  let st1 := snd (pay_share group_name amount payload st) in
  fake_users_db st1 = fake_users_db st /\
  (forall other, other <> group_name ->
     fake_groups_db st1 !! other = fake_groups_db st !! other) /\
  (forall member, sub payload <> Some member ->
     payment_in st1 group_name member = payment_in st group_name member) /\
  (forall g, fake_groups_db st !! group_name = Some g ->
     exists g1, fake_groups_db st1 !! group_name = Some g1 /\
                admin g1 = admin g /\ budget g1 = budget g /\
                members g1 = members g /\ split_amount g1 = split_amount g).
Proof.
  intros st1. unfold st1.
  destruct (pay_share_shape group_name amount payload st)
    as [->|(uname & g & ps & p & p' & Hsub & Hg & Hps & Hp & ->)].
  - repeat split; try reflexivity. intros g Hg. exists g. repeat split. exact Hg.
  - simpl. split; [reflexivity|]. split; [|split].
    + intros other Hne. apply lookup_insert_ne. congruence.
    + intros member Hne. unfold payment_in. simpl.
      rewrite lookup_insert_eq, Hg. simpl. rewrite Hps.
      apply lookup_insert_ne. congruence.
    + intros g0 Hg0. rewrite Hg in Hg0. injection Hg0 as <-.
      rewrite lookup_insert_eq. eexists. repeat split; reflexivity.
Qed.

(** X20: the last submission wins.  When a member with a record submits
    twice and neither amount exceeds the share, the store after the two
    calls is the store that the second call alone would have produced: no
    trace of the first amount is kept. *)
Theorem pay_share_last_write_wins
    st group_name amount1 amount2 payload uname g split ps p :
  sub payload = Some uname ->
  fake_groups_db st !! group_name = Some g ->
  uname ∈ members g ->
  split_amount g = Some split ->
  payments g = Some ps ->
  ps !! uname = Some p ->
  py_gt amount1 split = false ->
  py_gt amount2 split = false ->
  pay_share group_name amount2 payload
    (snd (pay_share group_name amount1 payload st))
  = pay_share group_name amount2 payload st.
Proof.
  intros Hsub Hg Hm Hs Hps Hp H1 H2.
  rewrite (pay_share_member st group_name amount1 payload uname g split ps p)
    by assumption.
  rewrite H1. simpl.
  erewrite (pay_share_member _ group_name amount2 payload uname
              (set_payments _ g) split);
    [|exact Hsub|simpl; apply lookup_insert_eq|exact Hm|exact Hs
     |reflexivity|apply lookup_insert_eq].
  rewrite (pay_share_member st group_name amount2 payload uname g split ps p)
    by assumption.
  rewrite H2. simpl. rewrite !insert_insert_eq. reflexivity.
Qed.

Lemma pay_share_last_write_wins_witness :
  pay_share "trip" 100 alice (snd (pay_share "trip" 40 alice trip_store))
  = pay_share "trip" 100 alice trip_store.
Proof.
  apply (pay_share_last_write_wins trip_store "trip" 40 100 alice "alice" trip
           150 trip_payments default_payment).
  - reflexivity.
  - reflexivity.
  - apply (bool_decide_unpack _). vm_compute. exact I.
  - reflexivity.
  - reflexivity.
  - reflexivity.
  - vm_compute. reflexivity.
  - vm_compute. reflexivity.
Defined.

(** X21: only the admin decides.  When the caller's subject is not the
    group's admin, [approve_payment] fails with 403 for every target and
    every action, and nothing changes. *)
Theorem approve_payment_admin_only
    st group_name uname action payload g adm caller :
  fake_groups_db st !! group_name = Some g ->
  admin g = Some adm ->
  sub payload = Some caller ->
  caller <> adm ->
  approve_payment group_name uname action payload st
  = (HTTPException 403 "Only admin can approve payments", st).
Proof.
  intros Hg Hadm Hsub Hne. unfold approve_payment. run_handler.
  rewrite Hg. run_handler. rewrite Hsub, Hadm. run_handler.
  apply String.eqb_neq in Hne. rewrite Hne. reflexivity.
Qed.

Lemma approve_payment_admin_only_witness :
  approve_payment "trip" "bob" "approve" bob trip_store
  = (HTTPException 403 "Only admin can approve payments", trip_store).
Proof.
  apply (approve_payment_admin_only trip_store "trip" "bob" "approve" bob trip
           "alice" "bob").
  - reflexivity.
  - reflexivity.
  - reflexivity.
  - discriminate.
Defined.

(** Either [approve_payment] leaves the store alone, or it has replaced
    the status of the target's record. *)
Lemma approve_payment_shape group_name uname action payload st :
  snd (approve_payment group_name uname action payload st) = st \/
  exists g ps p s',
    fake_groups_db st !! group_name = Some g /\
    payments g = Some ps /\
    ps !! uname = Some p /\
    snd (approve_payment group_name uname action payload st)
    = {| fake_users_db := fake_users_db st;
         fake_groups_db :=
           <[group_name :=
               set_payments
                 (<[uname := {| paid_amount := paid_amount p;
                                status_of := s' |}]> ps) g]>
             (fake_groups_db st) |}.
Proof.
  unfold approve_payment. run_handler.
  destruct (fake_groups_db st !! group_name) as [g|] eqn:Hg;
    [|left; reflexivity].
  run_handler.
  destruct (sub payload) as [caller|]; [|left; reflexivity]. run_handler.
  destruct (admin g) as [adm|]; [|left; reflexivity]. run_handler.
  destruct (String.eqb caller adm); [|left; reflexivity]. run_handler.
  destruct (payments g) as [ps|] eqn:Hps; [|left; reflexivity]. run_handler.
  destruct (ps !! uname) as [p|] eqn:Hp; [|left; reflexivity]. run_handler.
  destruct (split_amount g) as [split|]; [|left; reflexivity]. run_handler.
  rewrite Hg. run_handler.
  right. exists g, ps, p. eexists. repeat split; try eassumption.
Qed.

(** X22: [approve_payment] writes at most one status.  Whatever the call
    and its outcome, the user records, every other group, every other
    record of the group, every paid amount, and the group's admin, budget,
    members and share are as before. *)
Theorem approve_payment_touches_one_status group_name uname action payload st :
  let st1 := snd (approve_payment group_name uname action payload st) in
  fake_users_db st1 = fake_users_db st /\
  (forall other, other <> group_name ->
     fake_groups_db st1 !! other = fake_groups_db st !! other) /\
  (forall member, member <> uname ->
     payment_in st1 group_name member = payment_in st group_name member) /\
  (forall member,
     option_map paid_amount (payment_in st1 group_name member)
     = option_map paid_amount (payment_in st group_name member)) /\
  (forall g, fake_groups_db st !! group_name = Some g ->
     exists g1, fake_groups_db st1 !! group_name = Some g1 /\
                admin g1 = admin g /\ budget g1 = budget g /\
                members g1 = members g /\ split_amount g1 = split_amount g).
Proof.
  intros st1. unfold st1.
  destruct (approve_payment_shape group_name uname action payload st)
    as [->|(g & ps & p & s' & Hg & Hps & Hp & ->)].
  - repeat split; try reflexivity. intros g Hg. exists g. repeat split. exact Hg.
  - simpl. split; [reflexivity|]. split; [|split; [|split]].
    + intros other Hne. apply lookup_insert_ne. congruence.
    + intros member Hne. unfold payment_in. simpl.
      rewrite lookup_insert_eq, Hg. simpl. rewrite Hps.
      apply lookup_insert_ne. congruence.
    + intros member. unfold payment_in. simpl.
      rewrite lookup_insert_eq, Hg. simpl. rewrite Hps.
      destruct (decide (uname = member)) as [<-|Hne].
      * rewrite lookup_insert_eq, Hp. reflexivity.
      * rewrite lookup_insert_ne by assumption. reflexivity.
    + intros g0 Hg0. rewrite Hg in Hg0. injection Hg0 as <-.
      rewrite lookup_insert_eq. eexists. repeat split; reflexivity.
Qed.

(** X23: a decision repeated is the decision made once.  When the admin
    sends the same action for the same member twice, the second call
    answers like the first and leaves the store as the first left it. *)
Theorem approve_payment_idempotent
    st group_name uname action payload g adm ps p split :
  fake_groups_db st !! group_name = Some g ->
  admin g = Some adm ->
  sub payload = Some adm ->
  payments g = Some ps ->
  ps !! uname = Some p ->
  split_amount g = Some split ->
  let st1 := snd (approve_payment group_name uname action payload st) in
  approve_payment group_name uname action payload st1
  = (fst (approve_payment group_name uname action payload st), st1).
Proof.
  intros Hg Hadm Hsub Hps Hp Hs st1. unfold st1.
  rewrite (approve_payment_admin st group_name uname action payload g adm ps p split)
    by assumption.
  simpl.
  erewrite (approve_payment_admin _ group_name uname action payload
              (set_payments _ g) adm _ _ split);
    [|simpl; apply lookup_insert_eq|exact Hadm|exact Hsub|reflexivity
     |apply lookup_insert_eq|exact Hs].
  simpl. rewrite !insert_insert_eq. reflexivity.
Qed.

Lemma approve_payment_idempotent_witness :
  let st1 := snd (approve_payment "trip" "bob" "deny" alice trip_store) in
  approve_payment "trip" "bob" "deny" alice st1
  = (fst (approve_payment "trip" "bob" "deny" alice trip_store), st1).
Proof.
  apply (approve_payment_idempotent trip_store "trip" "bob" "deny" alice trip
           "alice" trip_payments bob_paid 150).
  - reflexivity.
  - reflexivity.
  - reflexivity.
  - reflexivity.
  - reflexivity.
  - reflexivity.
Defined.

Lemma py_gt_irrefl a : py_gt a a = false.
Proof.
  unfold py_gt. rewrite ltb_spec. unfold SFltb.
  destruct (SFcompare (Prim2SF a) (Prim2SF a)) as [[]|] eqn:Hc; try reflexivity.
  pose proof (SFcompare_antisym (Prim2SF a) (Prim2SF a)) as H.
  rewrite Hc in H. discriminate.
Qed.

(** X24: paying the share and having it approved.  A member with a
    record who submits exactly the group's share is accepted, and the
    admin's "approve" that follows sets the status to [approved], provided
    the share is a number (it equals itself); the paid amount on record is
    the share. *)
Theorem pay_exact_share_then_approve
    st group_name admin_payload payload uname g adm split ps p :
  sub payload = Some uname ->
  sub admin_payload = Some adm ->
  fake_groups_db st !! group_name = Some g ->
  admin g = Some adm ->
  uname ∈ members g ->
  split_amount g = Some split ->
  payments g = Some ps ->
  ps !! uname = Some p ->
  py_eq split split = true ->
  let st1 := snd (pay_share group_name split payload st) in
  let st2 := snd (approve_payment group_name uname "approve" admin_payload st1) in
  status_in st1 group_name uname = Some pending_approval /\
  payment_in st2 group_name uname
  = Some {| paid_amount := split; status_of := approved |}.
Proof.
  intros Hsub Hasub Hg Hadm Hm Hs Hps Hp Heq st1 st2. unfold st2, st1.
  rewrite (pay_share_member st group_name split payload uname g split ps p)
    by assumption.
  rewrite py_gt_irrefl. simpl. unfold status_in.
  rewrite payment_in_put. split; [reflexivity|].
  erewrite (approve_payment_admin _ group_name uname "approve" admin_payload
              (set_payments _ g) adm _ _ split);
    [|simpl; apply lookup_insert_eq|exact Hadm|exact Hasub|reflexivity
     |apply lookup_insert_eq|exact Hs].
  simpl. rewrite decide_status_approve. simpl. rewrite Heq.
  unfold payment_in. simpl. rewrite lookup_insert_eq. simpl.
  apply lookup_insert_eq.
Qed.

Lemma pay_exact_share_then_approve_witness :
  let st1 := snd (pay_share "trip" 150 alice trip_store) in
  let st2 := snd (approve_payment "trip" "alice" "approve" alice st1) in
  status_in st1 "trip" "alice" = Some pending_approval /\
  payment_in st2 "trip" "alice"
  = Some {| paid_amount := 150%float; status_of := approved |}.
Proof.
  apply (pay_exact_share_then_approve trip_store "trip" alice alice
           "alice" trip "alice" 150 trip_payments default_payment).
  - reflexivity.
  - reflexivity.
  - reflexivity.
  - reflexivity.
  - apply (bool_decide_unpack _). vm_compute. exact I.
  - reflexivity.
  - reflexivity.
  - reflexivity.
  - vm_compute. reflexivity.
Defined.

(** ** Nothing is deleted or rewritten *)

Lemma user_kept_refl u : user_kept u u.
Proof. repeat split. exists []. symmetry. apply app_nil_r. Qed.

Lemma user_kept_trans u1 u2 u3 :
  user_kept u1 u2 -> user_kept u2 u3 -> user_kept u1 u3.
Proof.
  intros (Hn & Hp & Hr & m1 & Hg) (Hn' & Hp' & Hr' & m2 & Hg').
  repeat split; try congruence.
  exists (m1 ++ m2)%list. rewrite Hg', Hg. symmetry. apply app_assoc.
Qed.

Lemma group_kept_refl g : group_kept g g.
Proof.
  repeat split; [|intros; assumption]. exists []. symmetry. apply app_nil_r.
Qed.

Lemma group_kept_trans g1 g2 g3 :
  group_kept g1 g2 -> group_kept g2 g3 -> group_kept g1 g3.
Proof.
  intros (Ha & Hb & (m1 & Hm) & Hp) (Ha' & Hb' & (m2 & Hm') & Hp').
  repeat split; try congruence.
  - exists (m1 ++ m2)%list. rewrite Hm', Hm. symmetry. apply app_assoc.
  - intros uname H. apply Hp', Hp, H.
Qed.

Lemma evolves_refl st : evolves st st.
Proof.
  split; intros name x Hx; exists x; split; try assumption.
  - apply user_kept_refl.
  - apply group_kept_refl.
Qed.

Lemma evolves_trans st1 st2 st3 :
  evolves st1 st2 -> evolves st2 st3 -> evolves st1 st3.
Proof.
  intros [Hu Hg] [Hu' Hg']. split.
  - intros name u H. destruct (Hu name u H) as (u' & H' & K).
    destruct (Hu' name u' H') as (u'' & H'' & K').
    exists u''. split; [assumption|]. eapply user_kept_trans; eassumption.
  - intros name g H. destruct (Hg name g H) as (g' & H' & K).
    destruct (Hg' name g' H') as (g'' & H'' & K').
    exists g''. split; [assumption|]. eapply group_kept_trans; eassumption.
Qed.

(** Writing a group over itself, kept. *)
Lemma evolves_put_group st name g g' :
  fake_groups_db st !! name = Some g ->
  group_kept g g' ->
  evolves st {| fake_users_db := fake_users_db st;
                fake_groups_db := <[name := g']> (fake_groups_db st) |}.
Proof.
  intros Hg Hk. split; simpl.
  - intros n u Hu. exists u. split; [assumption|apply user_kept_refl].
  - intros n g0 Hg0. destruct (decide (name = n)) as [<-|Hne].
    + rewrite Hg in Hg0. injection Hg0 as <-.
      exists g'. split; [apply lookup_insert_eq|assumption].
    + exists g0. rewrite lookup_insert_ne by assumption.
      split; [assumption|apply group_kept_refl].
Qed.

(** Writing a group under a free name. *)
Lemma evolves_new_group st name g' :
  fake_groups_db st !! name = None ->
  evolves st {| fake_users_db := fake_users_db st;
                fake_groups_db := <[name := g']> (fake_groups_db st) |}.
Proof.
  intros Hfree. split; simpl.
  - intros n u Hu. exists u. split; [assumption|apply user_kept_refl].
  - intros n g0 Hg0. exists g0.
    rewrite lookup_insert_ne by congruence.
    split; [assumption|apply group_kept_refl].
Qed.

Lemma evolves_put_user st name u u' :
  fake_users_db st !! name = Some u ->
  user_kept u u' ->
  evolves st {| fake_users_db := <[name := u']> (fake_users_db st);
                fake_groups_db := fake_groups_db st |}.
Proof.
  intros Hu Hk. split; simpl.
  - intros n u0 Hu0. destruct (decide (name = n)) as [<-|Hne].
    + rewrite Hu in Hu0. injection Hu0 as <-.
      exists u'. split; [apply lookup_insert_eq|assumption].
    + exists u0. rewrite lookup_insert_ne by assumption.
      split; [assumption|apply user_kept_refl].
  - intros n g Hg. exists g. split; [assumption|apply group_kept_refl].
Qed.

Section Evolving.

Context {A B : Type}.

Lemma evolving_ret (a : A) : evolving (ret a).
Proof. intros st. apply evolves_refl. Qed.

Lemma evolving_http_error c d : evolving (@http_error A c d).
Proof. intros st. apply evolves_refl. Qed.

Lemma evolving_key_error k : evolving (@key_error A k).
Proof. intros st. apply evolves_refl. Qed.

Lemma evolving_lift (o : outcome A) : evolving (lift o).
Proof. intros st. apply evolves_refl. Qed.

Lemma evolving_subscript k (o : option A) : evolving (subscript k o).
Proof. intros st. destruct o; apply evolves_refl. Qed.

Lemma evolving_bind (m : handler A) (k : A -> handler B) :
  evolving m -> (forall a, evolving (k a)) -> evolving (bind m k).
Proof.
  intros Hm Hk st. unfold bind.
  specialize (Hm st). destruct (m st) as [[a| | |] st']; simpl in *;
    try assumption.
  eapply evolves_trans; [exact Hm|apply Hk].
Qed.

End Evolving.

Lemma evolving_get_groups : evolving get_groups.
Proof. intros st. apply evolves_refl. Qed.

Lemma evolving_get_users : evolving get_users.
Proof. intros st. apply evolves_refl. Qed.

Lemma evolving_for_each {A} (l : list A) body :
  (forall x, evolving (body x)) -> evolving (for_each l body).
Proof.
  intros Hbody. induction l as [|x l IH]; simpl.
  - apply evolving_ret.
  - apply evolving_bind; [apply Hbody | intros _; exact IH].
Qed.

Lemma evolving_group_of name : evolving (group_of name).
Proof.
  unfold group_of. apply evolving_bind; [apply evolving_get_groups|].
  intros gs. apply evolving_subscript.
Qed.

Lemma evolving_modify_group name f :
  (forall g, group_kept g (f g)) -> evolving (modify_group name f).
Proof.
  intros Hf st. unfold modify_group. run_handler.
  destruct (fake_groups_db st !! name) as [g|] eqn:Hg; simpl.
  - apply (evolves_put_group st name g); [assumption|apply Hf].
  - apply evolves_refl.
Qed.

Lemma group_kept_append g uname :
  group_kept g (set_members (members g ++ [uname]) g).
Proof. repeat split; [eexists; reflexivity|intros u H; exact H]. Qed.

Lemma group_kept_set_split_amount g s : group_kept g (set_split_amount s g).
Proof.
  repeat split; [exists []; symmetry; apply app_nil_r|intros u H; exact H].
Qed.

(** Putting a record under a name keeps everybody's record. *)
Lemma group_kept_set_payments g ps uname p :
  payments g = Some ps ->
  group_kept g (set_payments (<[uname := p]> ps) g).
Proof.
  intros Hps. repeat split; [exists []; symmetry; apply app_nil_r|].
  intros u (ps0 & p0 & Hps0 & Hp0). rewrite Hps in Hps0. injection Hps0 as <-.
  unfold has_payment. simpl.
  destruct (decide (uname = u)) as [<-|Hne].
  - exists (<[uname := p]> ps), p. split; [reflexivity|apply lookup_insert_eq].
  - exists (<[uname := p]> ps), p0.
    split; [reflexivity|]. rewrite lookup_insert_ne by assumption. exact Hp0.
Qed.

Lemma evolving_user_groups_append uname group_name :
  evolving (user_groups_append uname group_name).
Proof.
  intros st. unfold user_groups_append. run_handler.
  destruct (fake_users_db st !! uname) as [u|] eqn:Hu; simpl.
  - apply (evolves_put_user st uname u); [assumption|].
    repeat split. eexists; reflexivity.
  - apply evolves_refl.
Qed.

Lemma evolving_payments_setdefault group_name m :
  evolving (payments_setdefault group_name m).
Proof.
  intros st. unfold payments_setdefault. run_handler.
  destruct (fake_groups_db st !! group_name) as [g|] eqn:Hg; simpl;
    [|apply evolves_refl].
  destruct (payments g) as [ps|] eqn:Hps; simpl; [|apply evolves_refl].
  destruct (ps !! m); simpl; [apply evolves_refl|].
  run_handler. rewrite Hg. simpl.
  apply (evolves_put_group st group_name g); [assumption|].
  apply group_kept_set_payments, Hps.
Qed.

Lemma evolving_recalculate_split uname group_name :
  evolving (recalculate_split uname group_name).
Proof.
  unfold recalculate_split.
  repeat first
    [ apply evolving_ret | apply evolving_lift | apply evolving_subscript
    | apply evolving_group_of
    | apply evolving_modify_group; intros; apply group_kept_set_split_amount
    | apply evolving_for_each; intros; apply evolving_payments_setdefault
    | apply evolving_bind; [|intros] ].
Qed.

Lemma evolving_add_user_to_group uname group_name :
  evolving (add_user_to_group uname group_name).
Proof.
  unfold add_user_to_group.
  apply evolving_bind; [apply evolving_get_users|]. intros users.
  destruct (users !! uname); [|apply evolving_http_error].
  apply evolving_bind; [apply evolving_get_groups|]. intros gs.
  destruct (gs !! group_name) as [group|]; [|apply evolving_http_error].
  apply evolving_bind; [|intros; apply evolving_recalculate_split].
  destruct (negb (bool_decide (uname ∈ members group))); [|apply evolving_ret].
  apply evolving_bind; [|intros; apply evolving_user_groups_append].
  apply evolving_modify_group. intros g. apply group_kept_append.
Qed.

Lemma create_group_missing_sub st group_name b add_creator payload :
  fake_groups_db st !! group_name = None ->
  sub payload = None ->
  create_group group_name b add_creator payload st = (KeyError "sub", st).
Proof.
  intros Hfree Hsub. unfold create_group. run_handler.
  rewrite Hfree, Hsub. reflexivity.
Qed.

Lemma evolving_create_group group_name b add_creator payload :
  evolving (create_group group_name b add_creator payload).
Proof.
  intros st.
  destruct (fake_groups_db st !! group_name) as [g|] eqn:Hg.
  - rewrite (create_group_existing st group_name b add_creator payload g Hg).
    apply evolves_refl.
  - destruct (sub payload) as [creator|] eqn:Hsub.
    + destruct add_creator.
      * rewrite (create_group_with_creator st group_name b payload creator)
          by assumption.
        apply evolves_new_group, Hg.
      * rewrite (create_group_without_creator st group_name b payload creator)
          by assumption.
        apply evolves_new_group, Hg.
    + rewrite create_group_missing_sub by assumption. apply evolves_refl.
Qed.

Lemma evolving_pay_share group_name amount payload :
  evolving (pay_share group_name amount payload).
Proof.
  intros st.
  destruct (pay_share_shape group_name amount payload st)
    as [->|(uname & g & ps & p & p' & _ & Hg & Hps & _ & ->)].
  - apply evolves_refl.
  - apply (evolves_put_group st group_name g); [assumption|].
    apply group_kept_set_payments, Hps.
Qed.

Lemma evolving_approve_payment group_name uname action payload :
  evolving (approve_payment group_name uname action payload).
Proof.
  intros st.
  destruct (approve_payment_shape group_name uname action payload st)
    as [->|(g & ps & p & s' & Hg & Hps & _ & ->)].
  - apply evolves_refl.
  - apply (evolves_put_group st group_name g); [assumption|].
    apply group_kept_set_payments, Hps.
Qed.

Lemma evolving_register hash_password uname pw role groups_field :
  evolving (register hash_password uname pw role groups_field).
Proof.
  intros st.
  destruct (fake_users_db st !! uname) as [u|] eqn:Hu.
  - unfold register. run_handler. rewrite Hu. apply evolves_refl.
  - rewrite (register_fresh hash_password uname pw role groups_field st Hu).
    split; simpl.
    + intros n u0 Hu0. exists u0.
      rewrite lookup_insert_ne by congruence.
      split; [assumption|apply user_kept_refl].
    + intros n g Hg.
      destruct (join_groups_keeps uname (parse_groups groups_field)
                  (fake_groups_db st) n g Hg) as (more & Hmore).
      eexists. split; [exact Hmore|].
      repeat split; [eexists; reflexivity|intros x H; exact H].
Qed.

Lemma serve_evolves hash_password r st : evolves st (serve hash_password r st).
Proof.
  destruct r; simpl.
  - apply evolving_register.
  - apply evolving_create_group.
  - apply evolving_add_user_to_group.
  - apply evolving_pay_share.
  - apply evolving_approve_payment.
Qed.

Lemma serve_all_evolves hash_password rs :
  forall st, evolves st (serve_all hash_password rs st).
Proof.
  induction rs as [|r rs IH]; intros st; simpl.
  - apply evolves_refl.
  - eapply evolves_trans; [apply serve_evolves|apply IH].
Qed.

(** X25: no request deletes or rewrites a user.  After any sequence of
    requests, a user who was registered is still registered under the
    same name, with the same password hash and the same roles; the groups
    list has at most got longer. *)
Theorem user_records_are_stable hash_password rs st name u :
  fake_users_db st !! name = Some u ->
  exists u',
    fake_users_db (serve_all hash_password rs st) !! name = Some u' /\
    username u' = username u /\ password u' = password u /\
    roles u' = roles u /\
    exists more, groups u' = (groups u ++ more)%list.
Proof.
  intros Hu.
  destruct (serve_all_evolves hash_password rs st) as [Husers _].
  destruct (Husers name u Hu) as (u' & Hu' & Hk).
  exists u'. split; [exact Hu'|exact Hk].
Qed.

Lemma user_records_are_stable_witness :
  exists u',
    fake_users_db
      (serve_all toy_hash
         [Register "dave" "other" "user" ""; AddMember "dave" "trip";
          CreateGroup "club" 50 true (identity_claims "dave" ["admin"] [])]
         dave_store) !! "dave" = Some u' /\
    username u' = username dave_user /\ password u' = password dave_user /\
    roles u' = roles dave_user /\
    exists more, groups u' = (groups dave_user ++ more)%list.
Proof.
  apply (user_records_are_stable toy_hash
           [Register "dave" "other" "user" ""; AddMember "dave" "trip";
            CreateGroup "club" 50 true (identity_claims "dave" ["admin"] [])]
           dave_store "dave" dave_user).
  reflexivity.
Defined.

(** X26: no request deletes a group, changes its admin or its budget,
    removes a member, or removes a payment record.  After any sequence of
    requests, a group that existed still exists with the same admin and
    budget, its members list has at most got longer, and every member who
    had a payment record still has one. *)
Theorem groups_are_stable hash_password rs st name g :
  fake_groups_db st !! name = Some g ->
  exists g',
    fake_groups_db (serve_all hash_password rs st) !! name = Some g' /\
    admin g' = admin g /\ budget g' = budget g /\
    (exists more, members g' = (members g ++ more)%list) /\
    (forall member, is_Some (payment_in st name member) ->
       is_Some (payment_in (serve_all hash_password rs st) name member)).
Proof.
  intros Hg.
  destruct (serve_all_evolves hash_password rs st) as [_ Hgroups].
  destruct (Hgroups name g Hg) as (g' & Hg' & Ha & Hb & Hm & Hp).
  exists g'. repeat split; try assumption.
  intros member [p Hpay]. unfold payment_in in *. rewrite Hg in Hpay.
  destruct (payments g) as [ps|] eqn:Hps; [|discriminate].
  destruct (Hp member) as (ps' & p' & Hps' & Hp').
  { exists ps, p. split; [exact Hps|exact Hpay]. }
  rewrite Hg', Hps'. eauto.
Qed.

Lemma groups_are_stable_witness :
  exists g',
    fake_groups_db
      (serve_all toy_hash
         [Register "erin" "pw" "user" "trip";
          DecidePayment "trip" "bob" "deny" alice;
          CreateGroup "trip" 1 true bob]
         trip_store) !! "trip" = Some g' /\
    admin g' = admin trip /\ budget g' = budget trip /\
    (exists more, members g' = (members trip ++ more)%list) /\
    (forall member, is_Some (payment_in trip_store "trip" member) ->
       is_Some (payment_in
                  (serve_all toy_hash
                     [Register "erin" "pw" "user" "trip";
                      DecidePayment "trip" "bob" "deny" alice;
                      CreateGroup "trip" 1 true bob]
                     trip_store) "trip" member)).
Proof.
  apply (groups_are_stable toy_hash
           [Register "erin" "pw" "user" "trip";
            DecidePayment "trip" "bob" "deny" alice;
            CreateGroup "trip" 1 true bob]
           trip_store "trip" trip).
  reflexivity.
Defined.

(** ** The ledger invariant away from [register] *)

Lemma ledger_well_formed_put st users name g' :
  ledger_well_formed st ->
  well_formed_group g' ->
  ledger_well_formed
    {| fake_users_db := users;
       fake_groups_db := <[name := g']> (fake_groups_db st) |}.
Proof.
  intros Hst Hg' n g. simpl. destruct (decide (name = n)) as [<-|Hne].
  - rewrite lookup_insert_eq. intros [= <-]. exact Hg'.
  - rewrite lookup_insert_ne by assumption. apply Hst.
Qed.

Lemma well_formed_set_payments g ps uname p :
  well_formed_group g ->
  payments g = Some ps ->
  well_formed_group (set_payments (<[uname := p]> ps) g).
Proof.
  intros (Ha & _ & Hall & b & s & Hb & Hs & Hshare) Hps.
  split; [exact Ha|]. split; [simpl; eauto|]. split.
  - unfold every_member_has_payment in *. simpl. rewrite Hps in Hall.
    apply forallb_forall. intros m Hm.
    rewrite forallb_forall in Hall. specialize (Hall m Hm).
    apply bool_decide_eq_true_1 in Hall. apply bool_decide_eq_true_2.
    destruct (decide (uname = m)) as [<-|Hne].
    + rewrite lookup_insert_eq. eauto.
    + rewrite lookup_insert_ne by assumption. exact Hall.
  - exists b, s. simpl. repeat split; assumption.
Qed.

Lemma add_user_to_group_well_formed st uname group_name :
  ledger_well_formed st ->
  ledger_well_formed (snd (add_user_to_group uname group_name st)).
Proof.
  intros Hst.
  destruct (fake_users_db st !! uname) as [u|] eqn:Hu;
    [|unfold add_user_to_group; run_handler; rewrite Hu; exact Hst].
  destruct (fake_groups_db st !! group_name) as [g|] eqn:Hg;
    [|unfold add_user_to_group; run_handler; rewrite Hu, Hg; exact Hst].
  destruct (Hst group_name g Hg)
    as (Ha & [ps Hps] & _ & b & s & Hb & _ & _).
  rewrite (add_user_to_group_full st uname group_name u g b ps) by assumption.
  simpl. apply ledger_well_formed_put; [exact Hst|].
  set (ms := if bool_decide (uname ∈ members g) then members g
             else (members g ++ [uname])%list).
  split; [exact Ha|]. split; [simpl; eauto|]. split.
  - unfold every_member_has_payment. simpl.
    apply forallb_forall. intros m Hm. apply bool_decide_eq_true_2.
    apply fill_payments_covers, list_elem_of_In, Hm.
  - eexists _, _. simpl. split; [reflexivity|]. split; [reflexivity|].
    destruct ms as [|m ms'] eqn:Hms; [|right; reflexivity].
    exfalso. subst ms.
    destruct (bool_decide (uname ∈ members g)) eqn:Hin.
    + apply bool_decide_eq_true_1 in Hin. rewrite Hms in Hin. inversion Hin.
    + destruct (members g); discriminate.
Qed.

Lemma create_group_well_formed st group_name b add_creator payload :
  ledger_well_formed st ->
  ledger_well_formed (snd (create_group group_name b add_creator payload st)).
Proof.
  intros Hst.
  destruct (fake_groups_db st !! group_name) as [g|] eqn:Hg.
  - rewrite (create_group_existing st group_name b add_creator payload g Hg).
    exact Hst.
  - destruct (sub payload) as [creator|] eqn:Hsub.
    + destruct add_creator.
      * rewrite (create_group_with_creator st group_name b payload creator)
          by assumption.
        simpl. apply ledger_well_formed_put; [exact Hst|].
        split; [simpl; eauto|]. split; [simpl; eauto|]. split.
        -- unfold every_member_has_payment. simpl.
           rewrite lookup_insert_eq. reflexivity.
        -- eexists _, _. simpl. split; [reflexivity|]. split; [reflexivity|].
           left. reflexivity.
      * rewrite (create_group_without_creator st group_name b payload creator)
          by assumption.
        simpl. apply ledger_well_formed_put; [exact Hst|].
        split; [simpl; eauto|]. split; [simpl; eauto|].
        split; [reflexivity|].
        eexists _, _. simpl. repeat split; reflexivity.
    + rewrite create_group_missing_sub by assumption. exact Hst.
Qed.

Lemma pay_share_well_formed st group_name amount payload :
  ledger_well_formed st ->
  ledger_well_formed (snd (pay_share group_name amount payload st)).
Proof.
  intros Hst.
  destruct (pay_share_shape group_name amount payload st)
    as [->|(uname & g & ps & p & p' & _ & Hg & Hps & _ & ->)]; [exact Hst|].
  apply ledger_well_formed_put; [exact Hst|].
  apply well_formed_set_payments; [apply (Hst group_name g Hg)|exact Hps].
Qed.

Lemma approve_payment_well_formed st group_name uname action payload :
  ledger_well_formed st ->
  ledger_well_formed (snd (approve_payment group_name uname action payload st)).
Proof.
  intros Hst.
  destruct (approve_payment_shape group_name uname action payload st)
    as [->|(g & ps & p & s' & Hg & Hps & _ & ->)]; [exact Hst|].
  apply ledger_well_formed_put; [exact Hst|].
  apply well_formed_set_payments; [apply (Hst group_name g Hg)|exact Hps].
Qed.

Lemma register_no_group_well_formed hash_password uname pw role groups_field st :
  parse_groups groups_field = [] ->
  ledger_well_formed st ->
  ledger_well_formed (snd (register hash_password uname pw role groups_field st)).
Proof.
  intros Hnone Hst.
  destruct (fake_users_db st !! uname) as [u|] eqn:Hu.
  - unfold register. run_handler. rewrite Hu. exact Hst.
  - rewrite (register_fresh hash_password uname pw role groups_field st Hu).
    rewrite Hnone. simpl. exact Hst.
Qed.

Lemma serve_well_formed hash_password r st :
  names_no_group r = true ->
  ledger_well_formed st ->
  ledger_well_formed (serve hash_password r st).
Proof.
  intros Hr Hst. destruct r; simpl in *.
  - apply register_no_group_well_formed; [|exact Hst].
    destruct (parse_groups groups_field); [reflexivity|discriminate].
  - apply create_group_well_formed, Hst.
  - apply add_user_to_group_well_formed, Hst.
  - apply pay_share_well_formed, Hst.
  - apply approve_payment_well_formed, Hst.
Qed.

(** X27: away from registrations that name a group, the ledger stays well
    formed.  If every group has its five keys, a payment record for each
    member and a share computed from its budget and member count, then so
    it is after any sequence of requests in which no registration names a
    group: creations (the one that raises for want of a member included),
    additions, submissions and decisions, successful or not. *)
Theorem ledger_well_formed_preserved hash_password rs st :
  forallb names_no_group rs = true ->
  ledger_well_formed st ->
  ledger_well_formed (serve_all hash_password rs st).
Proof.
  revert st. induction rs as [|r rs IH]; intros st Hrs Hst; simpl; [exact Hst|].
  simpl in Hrs. apply andb_true_iff in Hrs as [Hr Hrs].
  apply IH; [exact Hrs|]. apply serve_well_formed; assumption.
Qed.

Lemma ledger_well_formed_empty : ledger_well_formed empty_store.
Proof. intros name g H. simpl in H. rewrite lookup_empty in H. discriminate. Qed.

Lemma ledger_well_formed_preserved_witness :
  ledger_well_formed
    (serve_all toy_hash
       [Register "alice" "a" "admin" ""; Register "bob" "b" "user" " , ";
        CreateGroup "trip" 300 true alice; AddMember "bob" "trip";
        CreateGroup "club" 90 false alice;
        SubmitPayment "trip" 150 bob;
        DecidePayment "trip" "bob" "approve" alice]
       empty_store).
Proof.
  apply (ledger_well_formed_preserved toy_hash
           [Register "alice" "a" "admin" ""; Register "bob" "b" "user" " , ";
            CreateGroup "trip" 300 true alice; AddMember "bob" "trip";
            CreateGroup "club" 90 false alice;
            SubmitPayment "trip" 150 bob;
            DecidePayment "trip" "bob" "approve" alice]
           empty_store).
  - vm_compute. reflexivity.
  - exact ledger_well_formed_empty.
Defined.
